(** * Solar Fault Analyzer API: the /predict handler and its input validation

    A shallow embedding of [backendsolar/solarbackend.py].  Python floats are
    IEEE 754 binary64 values ([spec_float] at precision 53, maximal exponent
    1024), dictionaries are finite maps, and the request handler is a
    computation in a small state-and-exception monad over the process-wide
    globals, the standard error stream and the trace of calls made to the
    loaded scaler and classifier. *)

From Stdlib Require Import ZArith QArith Qpower Qfield Qabs Lia SpecFloat Ascii.
From stdpp Require Import gmap strings list fin_maps pretty.

#[local] Set Warnings "-register-all".
#[local] Open Scope Z_scope.

(** ** Python floats *)

Module Float.

Abbreviation float := spec_float.

Definition prec : Z := 53.
Definition emax : Z := 1024.

(** The well-formed binary64 values: every Python float is one. *)
Definition valid (f : float) : Prop := valid_binary prec emax f = true.

(** [float(n)] for a Python int that is small enough not to overflow;
    round to nearest, ties to even. *)
Definition of_Z (z : Z) : float := binary_normalize prec emax z 0 false.

(** Python's [a <= b] on floats: false as soon as one side is NaN. *)
Definition le (a b : float) : bool := SFleb a b.

(** The chained comparison [lo <= x <= hi], that is
    [lo <= x and x <= hi]. *)
Definition chained_le (lo x hi : float) : bool := le lo x && le x hi.

Definition is_nan (f : float) : bool :=
  match f with S754_nan => true | _ => false end.

(** The exact rational number a finite float stands for; [None] for the
    infinities and NaN. *)
Definition signed (s : bool) (m : positive) : Z :=
  if s then Z.neg m else Z.pos m.

Definition value (f : float) : option Q :=
  match f with
  | S754_zero _ => Some 0%Q
  | S754_finite s m e => Some (inject_Z (signed s m) * Qpower 2 e)%Q
  | S754_infinity _ | S754_nan => None
  end.

(** The same number counted in units of [2^-1074], the smallest positive
    binary64 value: an integer for every valid float. *)
Definition ticks (f : float) : Z :=
  match f with
  | S754_finite s m e => signed s m * 2 ^ (e + 1074)
  | _ => 0
  end.

Definition is_finite (f : float) : bool :=
  match f with
  | S754_zero _ | S754_finite _ _ _ => true
  | S754_infinity _ | S754_nan => false
  end.

(** *** Fixed-point formatting, [format(x, '.2f')]

    The exact value is rounded to the nearest multiple of 1/100, ties to
    the even one, and printed with its sign, also when it rounds to
    zero. *)
Definition round_half_even_div (n d : Z) : Z :=
  let q := n / d in
  let r := n mod d in
  match 2 * r ?= d with
  | Lt => q
  | Gt => q + 1
  | Eq => if Z.even q then q else q + 1
  end.

Definition hundredths (m : positive) (e : Z) : Z :=
  if 0 <=? e then Z.pos m * 2 ^ e * 100
  else round_half_even_div (Z.pos m * 100) (2 ^ (- e)).

Definition two_digits (n : Z) : string :=
  if n <? 10 then "0" +:+ pretty n else pretty n.

Definition format_2f (f : float) : string :=
  match f with
  | S754_nan => "nan"
  | S754_infinity s => if s then "-inf" else "inf"
  | S754_zero s => if s then "-0.00" else "0.00"
  | S754_finite s m e =>
      let h := hundredths m e in
      (if s then "-" else "") +:+ pretty (h / 100) +:+ "." +:+ two_digits (h mod 100)
  end.

End Float.

Import Float.

(** ** Sensor bounds and input validation *)

Definition VOLT_MIN : float := Eval vm_compute in of_Z (-5).
Definition VOLT_MAX : float := Eval vm_compute in of_Z 20.
Definition TEMP_MIN : float := Eval vm_compute in of_Z (-50).
Definition TEMP_MAX : float := Eval vm_compute in of_Z 60.
Definition DUST_MIN : float := Eval vm_compute in of_Z 0.
Definition DUST_MAX : float := Eval vm_compute in of_Z 1000.
Definition LIGHT_MIN : float := Eval vm_compute in of_Z (-10).
Definition LIGHT_MAX : float := Eval vm_compute in of_Z 20000.

(** [validate_sensor_inputs]: the message of the first failed check, or
    [None] when every reading is acceptable.  The bounds are interpolated
    with [str], which prints these eight constants as below. *)
Definition validate_sensor_inputs (volt temp dust light : float) : option string :=
  if negb (chained_le VOLT_MIN volt VOLT_MAX) then
    Some ("Input Error: Voltage (" +:+ format_2f volt
          +:+ " V) อยู่นอกขอบเขตที่รับได้ (" +:+ "-5.0" +:+ " V ถึง " +:+ "20.0" +:+ " V)")
  else if negb (chained_le TEMP_MIN temp TEMP_MAX) then
    Some ("Input Error: Temperature (" +:+ format_2f temp
          +:+ "°C) อยู่นอกขอบเขตที่รับได้ (" +:+ "-50.0" +:+ "°C ถึง " +:+ "60.0" +:+ "°C)")
  else if negb (chained_le DUST_MIN dust DUST_MAX) then
    Some ("Input Error: Dust (" +:+ format_2f dust
          +:+ " µg/m³) อยู่นอกขอบเขตที่รับได้ (" +:+ "0.0" +:+ " µg/m³ ถึง " +:+ "1000.0" +:+ " µg/m³)")
  else if negb (chained_le LIGHT_MIN light LIGHT_MAX) then
    Some ("Input Error: Irradiance (" +:+ format_2f light
          +:+ " lx) อยู่นอกขอบเขตที่รับได้ (" +:+ "-10.0" +:+ " lx ถึง " +:+ "20000.0" +:+ " lx)")
  else None.

(** ** Python values, exceptions and the built-ins the handler uses *)

(** The exception classes that matter to the handler.  [except ValueError]
    also catches the subclasses of [ValueError]; [OtherException] stands for
    every remaining subclass of [Exception]. *)
Inductive exc_class :=
  | ValueError
  | OtherValueError (name : string)
  | TypeError
  | OverflowError
  | KeyError
  | IndexError
  | AttributeError
  | OtherException (name : string).

(** An exception object: its class and its text, [str(e)]. *)
Record pyexc := PyExc { exc_cls : exc_class; exc_str : string }.

Definition is_ValueError (e : pyexc) : bool :=
  match exc_cls e with
  | ValueError | OtherValueError _ => true
  | _ => false
  end.

(** A call either returns a value or raises. *)
Inductive res (A : Type) :=
  | Ok (a : A)
  | Raise (e : pyexc).
Arguments Ok {A} a.
Arguments Raise {A} e.

Definition res_bind {A B : Type} (r : res A) (f : A → res B) : res B :=
  match r with
  | Ok a => f a
  | Raise e => Raise e
  end.

Declare Scope res_scope.
Delimit Scope res_scope with res.
Notation "'let*' x ':=' c 'in' k" := (res_bind c (λ x, k))
  (at level 10, x name, c at level 100, k at level 200) : res_scope.

(** The objects [json.loads] builds, which are also the ones [jsonify]
    serialises. *)
Inductive pyobj :=
  | PNone
  | PBool (b : bool)
  | PInt (z : Z)
  | PFloat (f : float)
  | PStr (s : string)
  | PList (l : list pyobj)
  | PDict (m : gmap string pyobj).

Definition type_name (v : pyobj) : string :=
  match v with
  | PNone => "NoneType"
  | PBool _ => "bool"
  | PInt _ => "int"
  | PFloat _ => "float"
  | PStr _ => "str"
  | PList _ => "list"
  | PDict _ => "dict"
  end.

(** [k in data], for a string [k]: key membership in a dict, element
    membership in a list, substring test in a string, [TypeError] on the
    other JSON types. *)
Definition py_contains (data : pyobj) (k : string) : res bool :=
  match data with
  | PDict m => Ok (bool_decide (is_Some (m !! k)))
  | PList l =>
      Ok (existsb (λ v, match v with PStr s => String.eqb s k | _ => false end) l)
  | PStr s => Ok (bool_decide (is_Some (String.index 0 k s)))
  | _ => Raise (PyExc TypeError ("argument of type '" +:+ type_name data +:+ "' is not iterable"))
  end.

(** [all(k in data for k in keys)]: stops at the first key that is absent. *)
Fixpoint py_all_in (data : pyobj) (keys : list string) : res bool :=
  match keys with
  | [] => Ok true
  | k :: ks =>
      (let* b := py_contains data k in
       if b then py_all_in data ks else Ok false)%res
  end.

(** [data[k]], for a string [k]. *)
Definition py_getitem (data : pyobj) (k : string) : res pyobj :=
  match data with
  | PDict m =>
      match m !! k with
      | Some v => Ok v
      | None => Raise (PyExc KeyError ("'" +:+ k +:+ "'"))
      end
  | PList _ => Raise (PyExc TypeError "list indices must be integers or slices, not str")
  | PStr _ => Raise (PyExc TypeError "string indices must be integers, not 'str'")
  | _ => Raise (PyExc TypeError ("'" +:+ type_name data +:+ "' object is not subscriptable"))
  end.

(** [repr] of a list of plain strings, as an f-string interpolates it. *)
Definition repr_str_list (l : list string) : string :=
  "[" +:+ String.concat ", " ((λ k, "'" +:+ k +:+ "'") <$> l) +:+ "]".

(** [os.path.join] on POSIX paths. *)
Definition ends_with_slash (a : string) : bool :=
  String.eqb (String.substring (String.length a - 1) 1 a) "/".

Definition path_join (a b : string) : string :=
  if String.prefix "/" b then b
  else if (String.eqb a "" || ends_with_slash a)%bool then a +:+ b
  else a +:+ "/" +:+ b.

(** [numpy.argmax] of a one-dimensional float array: the index of the first
    maximum, a NaN counting as larger than everything; [ValueError] on an
    empty array. *)
Fixpoint argmax_loop (mp : float) (max_ind i : nat) (ip : list float) : nat :=
  match ip with
  | [] => max_ind
  | x :: rest =>
      if negb (le x mp) then
        if is_nan x then i else argmax_loop x i (S i) rest
      else argmax_loop mp max_ind (S i) rest
  end.

Definition np_argmax (a : list float) : res nat :=
  match a with
  | [] => Raise (PyExc ValueError "attempt to get argmax of an empty sequence")
  | x :: rest => Ok (if is_nan x then 0%nat else argmax_loop x 0 1 rest)
  end.

Section Builtins.

(** CPython's conversion of a string to a float, [None] when the string
    is not a float literal ([float] then raises [ValueError]). *)
Variable float_of_str : string → option float.

(** [float(v)].  The messages are worded as CPython 3.10 and later word
    them. *)
Definition py_float (v : pyobj) : res float :=
  match v with
  | PFloat f => Ok f
  | PBool b => Ok (of_Z (if b then 1 else 0))
  | PInt z =>
      match of_Z z with
      | S754_infinity _ => Raise (PyExc OverflowError "int too large to convert to float")
      | f => Ok f
      end
  | PStr s =>
      match float_of_str s with
      | Some f => Ok f
      | None => Raise (PyExc ValueError ("could not convert string to float: '" +:+ s +:+ "'"))
      end
  | PNone | PList _ | PDict _ =>
      Raise (PyExc TypeError
               ("float() argument must be a string or a real number, not '"
                +:+ type_name v +:+ "'"))
  end.

End Builtins.

(** ** The process: globals, standard error, and the loaded artifacts *)

(** A two-dimensional float array, row by row. *)
Definition matrix : Type := list (list float).

(** The unpickled scaler and the loaded Keras model, seen through the one
    method the handler calls on each.  Both are fitted functions that may
    raise. *)
Record Scaler := { transform : matrix → res matrix }.
Record Model := { model_predict : matrix → res matrix }.

(** The calls made to the artifacts, with their arguments. *)
Inductive call :=
  | CallTransform (input_array : matrix)
  | CallPredict (scaled_input : matrix).

(** The module-level names the handler reads. *)
Record globals := {
  g_model : option Model;
  g_scaler : option Scaler;
  g_LABEL_MAP : gmap nat string;
}.

Record world := {
  w_globals : globals;
  w_stderr : list string;
  w_calls : list call;
}.

Definition LABEL_MAP : gmap nat string :=
  list_to_map [
    (0, "ปกติ (Normal)");
    (1, "ฝุ่น (Soiling)");
    (2, "อุณหภูมิสูง (High Temp)");
    (3, "เงาบัง (Shading)");
    (4, "Sensor Error / ค่าผิดปกติเกินขอบเขต");
    (5, "ร้อน+เงา (Temp + Shade)");
    (6, "ฝุ่น+ร้อน (Dust + Temp)");
    (7, "ฝุ่น+เงา (Dust + Shade)");
    (8, "ฝุ่น+ร้อน+เงา (Worst Case)");
    (9, "อุณหภูมิต่ำ (Low Temp)")
  ]%nat.

(** *** Handler computations: state and exceptions *)

Definition M (A : Type) : Type := world → res A * world.

Definition ret {A : Type} (a : A) : M A := λ w, (Ok a, w).

Definition bind {A B : Type} (c : M A) (k : A → M B) : M B := λ w,
  match c w with
  | (Ok a, w') => k a w'
  | (Raise e, w') => (Raise e, w')
  end.

Definition lift {A : Type} (r : res A) : M A := λ w, (r, w).

(** [try: body except Exception as e: handler e]. *)
Definition try_except {A : Type} (body : M A) (handler : pyexc → M A) : M A := λ w,
  match body w with
  | (Ok a, w') => (Ok a, w')
  | (Raise e, w') => handler e w'
  end.

Definition read_globals : M globals := λ w, (Ok (w_globals w), w).

(** [print(line, file=sys.stderr)]. *)
Definition print_stderr (line : string) : M unit := λ w,
  (Ok tt, {| w_globals := w_globals w; w_stderr := w_stderr w ++ [line]; w_calls := w_calls w |}).

Definition record_call (c : call) : M unit := λ w,
  (Ok tt, {| w_globals := w_globals w; w_stderr := w_stderr w; w_calls := w_calls w ++ [c] |}).

Declare Scope M_scope.
Delimit Scope M_scope with M.
Notation "'let*' x ':=' c 'in' k" := (bind c (λ x, k))
  (at level 10, x name, c at level 100, k at level 200) : M_scope.
Notation "c ';;' k" := (bind c (λ _, k))
  (at level 100, k at level 200, right associativity) : M_scope.

(** [scaler.transform(x)] and [model.predict(x, verbose=0)], on whatever
    the globals hold at the time of the call. *)
Definition scaler_transform (x : matrix) : M matrix :=
  (let* g := read_globals in
   match g_scaler g with
   | Some s => record_call (CallTransform x) ;; lift (transform s x)
   | None =>
       lift (Raise (PyExc AttributeError "'NoneType' object has no attribute 'transform'"))
   end)%M.

Definition model_predict_call (x : matrix) : M matrix :=
  (let* g := read_globals in
   match g_model g with
   | Some m => record_call (CallPredict x) ;; lift (model_predict m x)
   | None =>
       lift (Raise (PyExc AttributeError "'NoneType' object has no attribute 'predict'"))
   end)%M.

(** [a[0]] on a two-dimensional array. *)
Definition first_row (a : matrix) : res (list float) :=
  match a with
  | row :: _ => Ok row
  | [] => Raise (PyExc IndexError "index 0 is out of bounds for axis 0 with size 0")
  end.

(** [{LABEL_MAP[i]: float(prob) for i, prob in enumerate(prediction_array)}],
    from index [i] on. *)
Fixpoint probabilities_from (labels : gmap nat string) (i : nat) (probs : list float)
    (acc : gmap string pyobj) : res (gmap string pyobj) :=
  match probs with
  | [] => Ok acc
  | prob :: rest =>
      match labels !! i with
      | Some label => probabilities_from labels (S i) rest (<[label := PFloat prob]> acc)
      | None => Raise (PyExc KeyError (pretty i))
      end
  end.

(** ** Startup *)

Definition MODEL_FILE_NAME : string := "solar_panel_ai_10_classes.h5".
Definition SCALER_FILE_NAME : string := "scaler_10_classes.pkl".

Section Startup.

(** The directory of the module, and what [load_model] and opening and
    unpickling the scaler file do on a path. *)
Variable here : string.
Variable load_model : string → res Model.
Variable pickle_load : string → res Scaler.

Definition MODEL_PATH : string := path_join (path_join here "model") MODEL_FILE_NAME.
Definition SCALER_PATH : string := path_join (path_join here "model") SCALER_FILE_NAME.

Definition startup : world :=
  let '(model, line1) :=
    match load_model MODEL_PATH with
    | Ok m => (Some m, "✅ Model loaded successfully from: " +:+ MODEL_PATH)
    | Raise e => (None, "❌ Error loading model: " +:+ exc_str e)
    end in
  let '(scaler, line2) :=
    match pickle_load SCALER_PATH with
    | Ok s => (Some s, "✅ Scaler loaded successfully from: " +:+ SCALER_PATH)
    | Raise e => (None, "❌ Error loading scaler: " +:+ exc_str e)
    end in
  {| w_globals := {| g_model := model; g_scaler := scaler; g_LABEL_MAP := LABEL_MAP |};
     w_stderr := [line1; line2];
     w_calls := [] |}.

End Startup.

(** ** The routes *)

(** The methods routed to [/predict]. *)
Inductive http_method := POST | OPTIONS.

(** A request as the handler sees it: its method, and what
    [request.get_json()] gives, the parsed body or an exception. *)
Record request := {
  method : http_method;
  get_json : res pyobj;
}.

(** A response body is a plain string or the serialisation of a dict. *)
Inductive body :=
  | Text (s : string)
  | Json (j : pyobj).

Definition response : Type := body * Z.

Definition jsonify (d : gmap string pyobj) : body := Json (PDict d).

Definition is_none {A : Type} (o : option A) : bool :=
  match o with
  | None => true
  | Some _ => false
  end.

Definition home : M response :=
  ret (jsonify {[ "message" := PStr "Solar Fault Analyzer API is running" ]}, 200).

Definition required_keys : list string := ["voltage"; "temperature"; "dust"; "irradiance"].

(** [LABEL_MAP[i]] on the global dict. *)
Definition label_at (i : nat) : M string :=
  (let* g := read_globals in
   match g_LABEL_MAP g !! i with
   | Some label => ret label
   | None => lift (Raise (PyExc KeyError (pretty i)))
   end)%M.

(** Steps 2 to 5 of the handler: scale, predict, pick the label, collect the
    probabilities. *)
Definition classify (voltage temperature dust irradiance : float) : M response :=
  (let input_array := [[voltage; dust; temperature; irradiance]] in
   let* scaled_input := scaler_transform input_array in
   let* prediction := model_predict_call scaled_input in
   let* prediction_array := lift (first_row prediction) in
   let* predicted_class_index := lift (np_argmax prediction_array) in
   let* g := read_globals in
   let predicted_label := default "Unknown Class" (g_LABEL_MAP g !! predicted_class_index) in
   let* probabilities := lift (probabilities_from (g_LABEL_MAP g) 0 prediction_array ∅) in
   ret (jsonify {[ "result" := PStr predicted_label;
                   "probabilities" := PDict probabilities ]}, 200))%M.

Section Handler.

Variable float_of_str : string → option float.

(** [float(data[k])]. *)
Definition float_field (data : pyobj) (k : string) : M float :=
  lift (let* v := py_getitem data k in py_float float_of_str v)%res.

(** The body of the [try] block. *)
Definition predict_try (data : pyobj) : M response :=
  (let* voltage := float_field data "voltage" in
   let* temperature := float_field data "temperature" in
   let* dust := float_field data "dust" in
   let* irradiance := float_field data "irradiance" in
   match validate_sensor_inputs voltage temperature dust irradiance with
   | Some validation_error =>
       if negb (String.eqb validation_error "") then
         let* fault := label_at 4 in
         ret (jsonify {[ "result" := PStr fault;
                         "error" := PStr validation_error ]}, 400)
       else classify voltage temperature dust irradiance
   | None => classify voltage temperature dust irradiance
   end)%M.

(** The two [except] clauses. *)
Definition predict_except (e : pyexc) : M response :=
  (if is_ValueError e then
     ret (jsonify {[ "error" := PStr "Invalid data format. All inputs must be numerical." ]}, 400)
   else
     print_stderr ("Prediction Error (Internal Server): " +:+ exc_str e) ;;
     ret (jsonify {[ "error" := PStr ("Internal server error during prediction: "
                                      +:+ exc_str e) ]}, 500))%M.

Definition predict (req : request) : M response :=
  (let* g := read_globals in
   if is_none (g_model g) || is_none (g_scaler g) then
     ret (jsonify {[ "error" := PStr "Model or Scaler not loaded. Service unavailable." ]}, 503)
   else
     match method req with
     | OPTIONS => ret (Text "", 204)
     | POST =>
         let* data := lift (get_json req) in
         let* present := lift (py_all_in data required_keys) in
         if negb present then
           ret (jsonify {[ "error" := PStr ("Missing one or more required keys: "
                                            +:+ repr_str_list required_keys) ]}, 400)
         else try_except (predict_try data) predict_except
     end)%M.

End Handler.

(** ** The sensor table the validation is checked against *)

Inductive field := Voltage | Temperature | Dust | Irradiance.

Definition field_name (fld : field) : string :=
  match fld with
  | Voltage => "Voltage"
  | Temperature => "Temperature"
  | Dust => "Dust"
  | Irradiance => "Irradiance"
  end.

(** The unit as it follows a value in a message. *)
Definition field_unit (fld : field) : string :=
  match fld with
  | Voltage => " V"
  | Temperature => "°C"
  | Dust => " µg/m³"
  | Irradiance => " lx"
  end.

(** The closed interval of acceptable readings. *)
Definition bounds (fld : field) : Z * Z :=
  match fld with
  | Voltage => (-5, 20)
  | Temperature => (-50, 60)
  | Dust => (0, 1000)
  | Irradiance => (-10, 20000)
  end.

(** [x] is a number inside the interval of [fld]. *)
Definition within (fld : field) (x : float) : Prop :=
  ∃ q, value x = Some q ∧
       (inject_Z (bounds fld).1 <= q)%Q ∧ (q <= inject_Z (bounds fld).2)%Q.

(** The same, as a test. *)
Definition in_bounds (fld : field) (x : float) : bool :=
  match value x with
  | Some q => Qle_bool (inject_Z (bounds fld).1) q && Qle_bool q (inject_Z (bounds fld).2)
  | None => false
  end.

(** A bound printed as a float: the integer followed by [.0]. *)
Definition bound_text (b : Z) : string := pretty b +:+ ".0".

Definition violation_message (fld : field) (x : float) : string :=
  "Input Error: " +:+ field_name fld +:+ " (" +:+ format_2f x +:+ field_unit fld
  +:+ ") อยู่นอกขอบเขตที่รับได้ (" +:+ bound_text (bounds fld).1 +:+ field_unit fld
  +:+ " ถึง " +:+ bound_text (bounds fld).2 +:+ field_unit fld +:+ ")".

(** The first reading, in the order given, that is not in its interval. *)
Definition first_violation (readings : list (field * float)) : option (field * float) :=
  List.find (λ r, negb (in_bounds r.1 r.2)) readings.

(** [part] occurs in [s]. *)
Definition mentions (s part : string) : Prop :=
  ∃ before after, s = before +:+ part +:+ after.

(** The module constants that bound each field. *)
Definition field_min (fld : field) : float :=
  match fld with
  | Voltage => VOLT_MIN
  | Temperature => TEMP_MIN
  | Dust => DUST_MIN
  | Irradiance => LIGHT_MIN
  end.

Definition field_max (fld : field) : float :=
  match fld with
  | Voltage => VOLT_MAX
  | Temperature => TEMP_MAX
  | Dust => DUST_MAX
  | Irradiance => LIGHT_MAX
  end.

(** The four readings of a request, in the order they are checked. *)
Definition readings (volt temp dust light : float) : list (field * float) :=
  [(Voltage, volt); (Temperature, temp); (Dust, dust); (Irradiance, light)].

(** ** Vocabulary of the statements *)

(** Both artifacts were loaded. *)
Definition loaded (w : world) : Prop :=
  is_Some (g_model (w_globals w)) ∧ is_Some (g_scaler (w_globals w)).

(** The body is an object whose key [k] holds a value that [float]
    converts to [x]. *)
Definition reads (float_of_str : string → option float)
    (data : pyobj) (k : string) (x : float) : Prop :=
  ∃ m v, data = PDict m ∧ m !! k = Some v ∧ py_float float_of_str v = Ok x.

(** The four fields of the body parse as floats. *)
Definition parses (float_of_str : string → option float)
    (data : pyobj) (volt temp dust light : float) : Prop :=
  reads float_of_str data "voltage" volt ∧ reads float_of_str data "temperature" temp ∧
  reads float_of_str data "dust" dust ∧ reads float_of_str data "irradiance" light.

(** The body of the 400 response of a rejected reading. *)
Definition fault_body (fault msg : string) : body :=
  jsonify {[ "result" := PStr fault; "error" := PStr msg ]}.

(** Two sets of globals that cannot be told apart by calling them: the same
    label map, and artifacts that are both absent or return the same
    outputs on the same inputs. *)
Definition same_artifacts (g1 g2 : globals) : Prop :=
  g_LABEL_MAP g1 = g_LABEL_MAP g2 ∧
  option_Forall2 (λ a b, ∀ x, model_predict a x = model_predict b x) (g_model g1) (g_model g2) ∧
  option_Forall2 (λ a b, ∀ x, transform a x = transform b x) (g_scaler g1) (g_scaler g2).

Definition res_rel {A : Type} (R : A → A → Prop) (r1 r2 : res A) : Prop :=
  match r1, r2 with
  | Ok a1, Ok a2 => R a1 a2
  | Raise e1, Raise e2 => e1 = e2
  | _, _ => False
  end.

(** Run from indistinguishable globals, [c1] and [c2] give results related
    by [R] and leave the globals as they found them. *)
Definition pure_rel {A : Type} (R : A → A → Prop) (c1 c2 : M A) : Prop :=
  ∀ w1 w2, same_artifacts (w_globals w1) (w_globals w2) →
    res_rel R (c1 w1).1 (c2 w2).1 ∧
    w_globals (c1 w1).2 = w_globals w1 ∧
    w_globals (c2 w2).2 = w_globals w2.

(** ** Sample processes and requests *)

(** A scaler that returns its input and a model that always answers the
    same distribution over the ten classes. *)
Definition identity_scaler : Scaler := {| transform := λ x, Ok x |}.

Definition constant_model : Model :=
  {| model_predict := λ _,
       Ok [[of_Z 1; of_Z 0; of_Z 0; of_Z 0; of_Z 0; of_Z 0; of_Z 0; of_Z 0; of_Z 0; of_Z 0]] |}.

(** A process whose two artifacts loaded, and one whose model file is
    missing. *)
Definition ready_world : world :=
  startup "/srv/backendsolar" (λ _, Ok constant_model) (λ _, Ok identity_scaler).

Definition degraded_world : world :=
  startup "/srv/backendsolar"
    (λ path, Raise (PyExc (OtherException "OSError") ("No file or directory found at " +:+ path)))
    (λ _, Ok identity_scaler).

(** A string parser that accepts nothing, for requests that carry numbers
    only. *)
Definition no_strings : string → option float := λ _, None.

Definition post (data : pyobj) : request := {| method := POST; get_json := Ok data |}.

Definition sample_body (voltage temperature dust irradiance : pyobj) : pyobj :=
  PDict {[ "voltage" := voltage; "temperature" := temperature;
           "dust" := dust; "irradiance" := irradiance ]}.

(** *** Reading a decimal text back

    The inverse direction of the formatting: the number a text of the
    form [-ddd.dd] stands for. *)
Definition digit_of (c : ascii) : option N :=
  let n := N_of_ascii c in
  if (48 <=? n)%N && (n <=? 57)%N then Some (n - 48)%N else None.

(** The digits up to the decimal point, and the text after it. *)
Fixpoint read_int_part (acc : N) (s : string) : option (N * string) :=
  match s with
  | EmptyString => None
  | String c rest =>
      if (N_of_ascii c =? 46)%N then Some (acc, rest)
      else
        match digit_of c with
        | Some d => read_int_part (10 * acc + d)%N rest
        | None => None
        end
  end.

(** The digits after the point, appended to [acc], and how many there
    are. *)
Fixpoint read_frac_part (acc : N) (k : N) (s : string) : option (N * N) :=
  match s with
  | EmptyString => Some (acc, k)
  | String c rest =>
      match digit_of c with
      | Some d => read_frac_part (10 * acc + d)%N (k + 1)%N rest
      | None => None
      end
  end.

Definition read_unsigned (s : string) : option Q :=
  match read_int_part 0 s with
  | Some (n, rest) =>
      match read_frac_part n 0 rest with
      | Some (num, k) => Some (Z.of_N num # Z.to_pos (10 ^ Z.of_N k))
      | None => None
      end
  | None => None
  end.

Definition read_decimal (s : string) : option Q :=
  match s with
  | EmptyString => None
  | String c rest =>
      if (N_of_ascii c =? 45)%N then Qopp <$> read_unsigned rest else read_unsigned s
  end.

(** [text] stands for the rational [q]. *)
Definition reads_as (text : string) (q : Q) : Prop :=
  ∃ q', read_decimal text = Some q' ∧ (q' == q)%Q.

(** [text] shows the float [x]: a decimal within half a hundredth of its
    exact value, or the name of the infinity or of NaN. *)
Definition shows (text : string) (x : float) : Prop :=
  match value x with
  | Some v => ∃ q, read_decimal text = Some q ∧ (Qabs (q - v) <= 1 # 200)%Q
  | None =>
      text = match x with
             | S754_infinity true => "-inf"
             | S754_infinity false => "inf"
             | _ => "nan"
             end
  end.

(** [k] occurs in [s] as a substring. *)
Definition occurs (k s : string) : Prop :=
  ∃ m, String.substring m (String.length k) s = k.

(** [k in data] holds: [k] is a key of the object, an element of the
    array, a substring of the string. *)
Definition holds_name (data : pyobj) (k : string) : Prop :=
  match data with
  | PDict m => is_Some (m !! k)
  | PList l => PStr k ∈ l
  | PStr s => occurs k s
  | _ => False
  end.

(** ** Outcomes of a call, and sequences of calls *)

(** The exception of the first conversion that raises, if one does. *)
Fixpoint first_error (rs : list (res float)) : option pyexc :=
  match rs with
  | [] => None
  | Ok _ :: rest => first_error rest
  | Raise e :: _ => Some e
  end.

(** The bodies on which [k in data] is defined. *)
Definition is_container (data : pyobj) : bool :=
  match data with
  | PDict _ | PList _ | PStr _ => true
  | _ => false
  end.

(** The responses of the handler, by name. *)
Definition format_error : response :=
  (jsonify {[ "error" := PStr "Invalid data format. All inputs must be numerical." ]}, 400).

Definition internal_error (e : pyexc) : response :=
  (jsonify {[ "error" := PStr ("Internal server error during prediction: " +:+ exc_str e) ]}, 500).

Definition missing_keys_error : response :=
  (jsonify {[ "error" := PStr ("Missing one or more required keys: "
                               +:+ repr_str_list required_keys) ]}, 400).

(** The world after the catch-all clause printed its line, and after
    calls were made to the artifacts. *)
Definition log_error (e : pyexc) (w : world) : world :=
  {| w_globals := w_globals w;
     w_stderr := w_stderr w ++ ["Prediction Error (Internal Server): " +:+ exc_str e];
     w_calls := w_calls w |}.

Definition add_calls (new : list call) (w : world) : world :=
  {| w_globals := w_globals w; w_stderr := w_stderr w; w_calls := w_calls w ++ new |}.

(** The labels of [LABEL_MAP], by class index. *)
Definition class_labels : list string := [
  "ปกติ (Normal)";
  "ฝุ่น (Soiling)";
  "อุณหภูมิสูง (High Temp)";
  "เงาบัง (Shading)";
  "Sensor Error / ค่าผิดปกติเกินขอบเขต";
  "ร้อน+เงา (Temp + Shade)";
  "ฝุ่น+ร้อน (Dust + Temp)";
  "ฝุ่น+เงา (Dust + Shade)";
  "ฝุ่น+ร้อน+เงา (Worst Case)";
  "อุณหภูมิต่ำ (Low Temp)"
].

(** The requests of a list handled one after the other, an exception that
    leaves the handler ending that request only. *)
Fixpoint serve (float_of_str : string → option float) (reqs : list request) (w : world)
    : list (res response) * world :=
  match reqs with
  | [] => ([], w)
  | req :: rest =>
      let '(r, w1) := predict float_of_str req w in
      let '(rs, w2) := serve float_of_str rest w1 in
      (r :: rs, w2)
  end.

(** A rank that orders the floats that are not NaN: the ticks of the
    finite ones, the infinities beyond every finite value. *)
Definition order_key (f : float) : Z :=
  match f with
  | S754_infinity s => if s then - 2 ^ 2100 else 2 ^ 2100
  | _ => ticks f
  end.

Definition unavailable_error : response :=
  (jsonify {[ "error" := PStr "Model or Scaler not loaded. Service unavailable." ]}, 503).

Definition classified (label : string) (probs : gmap string pyobj) : response :=
  (jsonify {[ "result" := PStr label; "probabilities" := PDict probs ]}, 200).

(** The calls a request can have made when it ends: none, the scaler alone
    on a validated row, or the scaler and then the classifier on the
    scaler's output. *)
Inductive called (w : world) : list call → Prop :=
  | called_nothing : called w []
  | called_scaler volt temp dust light :
      validate_sensor_inputs volt temp dust light = None →
      called w [CallTransform [[volt; dust; temp; light]]]
  | called_both volt temp dust light sc y :
      validate_sensor_inputs volt temp dust light = None →
      g_scaler (w_globals w) = Some sc →
      transform sc [[volt; dust; temp; light]] = Ok y →
      called w [CallTransform [[volt; dust; temp; light]]; CallPredict y].

(** The ways a call of the handler ends. *)
Inductive outcome (w : world) : res response → world → Prop :=
  | out_unavailable :
      is_none (g_model (w_globals w)) || is_none (g_scaler (w_globals w)) = true →
      outcome w (Ok unavailable_error) w
  | out_preflight : outcome w (Ok (Text "", 204)) w
  | out_uncaught e : outcome w (Raise e) w
  | out_missing_keys : outcome w (Ok missing_keys_error) w
  | out_rejected volt temp dust light msg fault :
      validate_sensor_inputs volt temp dust light = Some msg →
      g_LABEL_MAP (w_globals w) !! 4%nat = Some fault →
      outcome w (Ok (fault_body fault msg, 400)) w
  | out_format_error e new :
      is_ValueError e = true → called w new →
      outcome w (Ok format_error) (add_calls new w)
  | out_internal_error e new :
      is_ValueError e = false → called w new →
      outcome w (Ok (internal_error e)) (log_error e (add_calls new w))
  | out_classified volt temp dust light sc md y prediction row idx label probs :
      validate_sensor_inputs volt temp dust light = None →
      g_scaler (w_globals w) = Some sc → g_model (w_globals w) = Some md →
      transform sc [[volt; dust; temp; light]] = Ok y →
      model_predict md y = Ok prediction →
      first_row prediction = Ok row →
      np_argmax row = Ok idx →
      g_LABEL_MAP (w_globals w) !! idx = Some label →
      probabilities_from (g_LABEL_MAP (w_globals w)) 0 row ∅ = Ok probs →
      outcome w (Ok (classified label probs))
        (add_calls [CallTransform [[volt; dust; temp; light]]; CallPredict y] w).

(** * Properties *)

(** ** Worked examples *)

Example format_2f_integer : format_2f (of_Z 75) = "75.00".
Proof. reflexivity. Qed.

(** One eighth is a tie between 0.12 and 0.13 and goes to the even one;
    three eighths goes up. *)
Example format_2f_ties :
  format_2f (S754_finite false 4503599627370496 (-55)) = "0.12" ∧
  format_2f (S754_finite false 6755399441055744 (-54)) = "0.38".
Proof. split; reflexivity. Qed.

Example format_2f_special :
  format_2f S754_nan = "nan" ∧ format_2f (S754_infinity true) = "-inf" ∧
  format_2f (S754_zero true) = "-0.00".
Proof. repeat split; reflexivity. Qed.

Example validate_temperature_75 :
  validate_sensor_inputs (of_Z 12) (of_Z 75) (of_Z 5) (of_Z 800) =
    Some "Input Error: Temperature (75.00°C) อยู่นอกขอบเขตที่รับได้ (-50.0°C ถึง 60.0°C)".
Proof. reflexivity. Qed.

Example validate_checks_voltage_first :
  validate_sensor_inputs (of_Z 21) (of_Z 75) (of_Z (-1)) S754_nan =
    Some "Input Error: Voltage (21.00 V) อยู่นอกขอบเขตที่รับได้ (-5.0 V ถึง 20.0 V)".
Proof. reflexivity. Qed.

Example validate_bounds_inclusive :
  validate_sensor_inputs (of_Z (-5)) (of_Z 60) (of_Z 0) (of_Z 20000) = None.
Proof. reflexivity. Qed.

Example MODEL_PATH_posix :
  MODEL_PATH "/srv/backendsolar" = "/srv/backendsolar/model/solar_panel_ai_10_classes.h5".
Proof. reflexivity. Qed.

Example py_contains_substring :
  py_contains (PStr "high voltage") "voltage" = Ok true ∧
  py_contains (PStr "volt") "voltage" = Ok false ∧
  py_contains (PList [PInt 1; PStr "voltage"]) "voltage" = Ok true.
Proof. repeat split; reflexivity. Qed.

Example np_argmax_first_maximum :
  np_argmax [of_Z 0; of_Z 3; of_Z 1; of_Z 3] = Ok 1%nat ∧
  np_argmax [of_Z 0; S754_nan; of_Z 3] = Ok 1%nat.
Proof. split; reflexivity. Qed.

(** A reading in range, classified by the sample model. *)
Example predict_in_range :
  (predict no_strings (post (sample_body (PInt 12) (PInt 25) (PInt 5) (PInt 800)))
     ready_world).1 =
    Ok (jsonify {[ "result" := PStr "ปกติ (Normal)";
                   "probabilities" := PDict (list_to_map [
                     ("ปกติ (Normal)", PFloat (of_Z 1));
                     ("ฝุ่น (Soiling)", PFloat (of_Z 0));
                     ("อุณหภูมิสูง (High Temp)", PFloat (of_Z 0));
                     ("เงาบัง (Shading)", PFloat (of_Z 0));
                     ("Sensor Error / ค่าผิดปกติเกินขอบเขต", PFloat (of_Z 0));
                     ("ร้อน+เงา (Temp + Shade)", PFloat (of_Z 0));
                     ("ฝุ่น+ร้อน (Dust + Temp)", PFloat (of_Z 0));
                     ("ฝุ่น+เงา (Dust + Shade)", PFloat (of_Z 0));
                     ("ฝุ่น+ร้อน+เงา (Worst Case)", PFloat (of_Z 0));
                     ("อุณหภูมิต่ำ (Low Temp)", PFloat (of_Z 0)) ]) ]}, 200).
Proof. vm_compute. reflexivity. Qed.

Example home_is_up w :
  home w = (Ok (jsonify {[ "message" := PStr "Solar Fault Analyzer API is running" ]}, 200), w).
Proof. reflexivity. Qed.

(** ** Floats: comparison against the exact value *)

Section FloatFacts.

Lemma digits2_pos_size p : digits2_pos p = Pos.size p.
Proof. induction p; simpl; congruence. Qed.

Lemma size_bounds p : 2 ^ (Z.pos (Pos.size p) - 1) <= Z.pos p < 2 ^ Z.pos (Pos.size p).
Proof.
  induction p as [p IH|p IH|]; simpl Pos.size.
  - rewrite Pos2Z.inj_succ.
    replace (Z.succ (Z.pos (Pos.size p)) - 1) with (Z.succ (Z.pos (Pos.size p) - 1)) by lia.
    rewrite !Z.pow_succ_r by lia. lia.
  - rewrite Pos2Z.inj_succ.
    replace (Z.succ (Z.pos (Pos.size p)) - 1) with (Z.succ (Z.pos (Pos.size p) - 1)) by lia.
    rewrite !Z.pow_succ_r by lia. lia.
  - simpl. lia.
Qed.

(** A valid finite float has its exponent in range and a mantissa of at
    most 53 bits, of exactly 53 bits unless it is subnormal. *)
Lemma valid_finite_bounds s m e :
  valid (S754_finite s m e) →
  -1074 <= e <= 971 ∧ Z.pos m < 2 ^ 53 ∧ (-1074 < e → 2 ^ 52 <= Z.pos m).
Proof.
  unfold valid, valid_binary, bounded, canonical_mantissa, fexp, SpecFloat.emin, prec, emax.
  rewrite digits2_pos_size. intros [Hc He]%andb_true_iff.
  apply Z.eqb_eq in Hc. apply Z.leb_le in He.
  pose proof (size_bounds m) as [Hlo Hhi].
  split; [lia|]. split.
  - eapply Z.lt_le_trans; [exact Hhi|]. apply Z.pow_le_mono_r; lia.
  - intros Hgt. eapply Z.le_trans; [|exact Hlo]. apply Z.pow_le_mono_r; lia.
Qed.

Lemma ticks_lt_of_exp_lt s1 m1 e1 s2 m2 e2 :
  valid (S754_finite s1 m1 e1) → valid (S754_finite s2 m2 e2) → e1 < e2 →
  Z.pos m1 * 2 ^ (e1 + 1074) < Z.pos m2 * 2 ^ (e2 + 1074).
Proof.
  intros (He1 & Hm1 & _)%valid_finite_bounds (He2 & _ & Hm2)%valid_finite_bounds Hlt.
  specialize (Hm2 ltac:(lia)).
  replace (e2 + 1074) with ((e2 - e1 - 1) + 1 + (e1 + 1074)) by lia.
  rewrite (Z.pow_add_r 2 (e2 - e1 - 1 + 1) (e1 + 1074)) by lia.
  rewrite (Z.pow_add_r 2 (e2 - e1 - 1) 1) by lia.
  assert (0 < 2 ^ (e1 + 1074)) by (apply Z.pow_pos_nonneg; lia).
  assert (1 <= 2 ^ (e2 - e1 - 1)) by (apply Z.lt_pred_le, Z.pow_pos_nonneg; lia).
  change (2 ^ 1) with 2.
  set (P := 2 ^ (e1 + 1074)) in *. set (A := 2 ^ (e2 - e1 - 1)) in *.
  apply Z.lt_le_trans with (2 ^ 53 * P); [apply Z.mul_lt_mono_pos_r; lia|].
  apply Z.le_trans with (Z.pos m2 * 2 * P); [apply Z.mul_le_mono_nonneg_r; lia|].
  assert (0 <= Z.pos m2 * 2 * P) by (apply Z.mul_nonneg_nonneg; lia).
  replace (Z.pos m2 * (A * 2 * P)) with (A * (Z.pos m2 * 2 * P)) by ring.
  set (X := Z.pos m2 * 2 * P) in *. nia.
Qed.

(** On valid finite floats the comparison of the code is the comparison
    of the exact values. *)
Lemma SFcompare_ticks f1 f2 :
  valid f1 → valid f2 → is_finite f1 = true → is_finite f2 = true →
  SFcompare f1 f2 = Some (ticks f1 ?= ticks f2).
Proof.
  intros V1 V2 F1 F2.
  destruct f1 as [s1| | |s1 m1 e1], f2 as [s2| | |s2 m2 e2]; try discriminate;
    cbn [SFcompare ticks].
  - reflexivity.
  - f_equal. assert (0 < 2 ^ (e2 + 1074)).
    { apply valid_finite_bounds in V2. apply Z.pow_pos_nonneg; lia. }
    destruct s2; cbn [signed]; symmetry;
      [apply Z.compare_gt_iff|apply Z.compare_lt_iff]; nia.
  - f_equal. assert (0 < 2 ^ (e1 + 1074)).
    { apply valid_finite_bounds in V1. apply Z.pow_pos_nonneg; lia. }
    destruct s1; cbn [signed]; symmetry;
      [apply Z.compare_lt_iff|apply Z.compare_gt_iff]; nia.
  - f_equal.
    assert (0 < 2 ^ (e1 + 1074)).
    { apply valid_finite_bounds in V1. apply Z.pow_pos_nonneg; lia. }
    assert (0 < 2 ^ (e2 + 1074)).
    { apply valid_finite_bounds in V2. apply Z.pow_pos_nonneg; lia. }
    pose proof (ticks_lt_of_exp_lt s1 m1 e1 s2 m2 e2 V1 V2) as H12.
    pose proof (ticks_lt_of_exp_lt s2 m2 e2 s1 m1 e1 V2 V1) as H21.
    change (Pos.compare_cont Eq m1 m2) with (Pos.compare m1 m2).
    destruct s1, s2; cbn [signed]; symmetry.
    + destruct (Z.compare_spec e1 e2) as [->|Hlt|Hgt].
      * rewrite <- Pos.compare_antisym, Pos2Z.inj_compare.
        destruct (Z.compare_spec (Z.pos m2) (Z.pos m1));
          [apply Z.compare_eq_iff|apply Z.compare_lt_iff|apply Z.compare_gt_iff]; nia.
      * apply Z.compare_gt_iff. specialize (H12 Hlt). lia.
      * apply Z.compare_lt_iff. specialize (H21 ltac:(lia)). lia.
    + apply Z.compare_lt_iff. nia.
    + apply Z.compare_gt_iff. nia.
    + destruct (Z.compare_spec e1 e2) as [->|Hlt|Hgt].
      * rewrite Pos2Z.inj_compare.
        destruct (Z.compare_spec (Z.pos m1) (Z.pos m2));
          [apply Z.compare_eq_iff|apply Z.compare_lt_iff|apply Z.compare_gt_iff]; nia.
      * apply Z.compare_lt_iff. specialize (H12 Hlt). lia.
      * apply Z.compare_gt_iff. specialize (H21 ltac:(lia)). lia.
Qed.

Lemma le_ticks f1 f2 :
  valid f1 → valid f2 → is_finite f1 = true → is_finite f2 = true →
  le f1 f2 = true ↔ ticks f1 <= ticks f2.
Proof.
  intros V1 V2 F1 F2. unfold le, SFleb. rewrite (SFcompare_ticks f1 f2) by assumption.
  destruct (Z.compare_spec (ticks f1) (ticks f2)); split; intros; try done; lia.
Qed.

Lemma Qpower_2_shift e :
  -1074 <= e → (Qpower 2 e == inject_Z (2 ^ (e + 1074)) / inject_Z (2 ^ 1074))%Q.
Proof.
  intros He.
  assert (H2 : ~ (2 == 0)%Q) by discriminate.
  rewrite (Zpower_Qpower 2 (e + 1074)) by lia.
  rewrite (Zpower_Qpower 2 1074) by lia.
  change (inject_Z 2) with 2%Q.
  rewrite Qpower_plus by assumption.
  field; apply Qpower_not_0; assumption.
Qed.

(** The value of a valid finite float is its number of ticks over
    [2^1074]. *)
Lemma value_ticks f :
  valid f → is_finite f = true →
  ∃ q, value f = Some q ∧ (q == ticks f # (2 ^ 1074)%positive)%Q.
Proof.
  intros V F. destruct f as [s| | |s m e]; try discriminate; cbn [value ticks].
  - exists 0%Q. split; [done|]. reflexivity.
  - eexists; split; [reflexivity|].
    apply valid_finite_bounds in V as (He & _).
    rewrite Qpower_2_shift by lia.
    rewrite (Qmake_Qdiv _ (2 ^ 1074)%positive).
    rewrite inject_Z_mult.
    replace (Z.pos (2 ^ 1074)) with (2 ^ 1074) by (rewrite Pos2Z.inj_pow; reflexivity).
    field; rewrite (Zpower_Qpower 2 1074) by lia; apply Qpower_not_0; discriminate.
Qed.

End FloatFacts.

(** ** Validation against the sensor table *)

Section ValidationFacts.

Lemma field_bounds_valid fld : valid (field_min fld) ∧ valid (field_max fld).
Proof. destruct fld; split; reflexivity. Qed.

Lemma field_bounds_finite fld :
  is_finite (field_min fld) = true ∧ is_finite (field_max fld) = true.
Proof. destruct fld; split; reflexivity. Qed.

(** The float constants of the module are the integers of the table. *)
Lemma field_bounds_ticks fld :
  ticks (field_min fld) = (bounds fld).1 * 2 ^ 1074 ∧
  ticks (field_max fld) = (bounds fld).2 * 2 ^ 1074.
Proof. destruct fld; split; vm_compute; reflexivity. Qed.

Lemma Qle_bool_ticks_l (c : Z) (q : Q) (t : Z) :
  (q == t # (2 ^ 1074)%positive)%Q →
  Qle_bool (inject_Z c) q = true ↔ c * 2 ^ 1074 <= t.
Proof.
  intros Hq. rewrite Qle_bool_iff, Hq. unfold Qle, inject_Z. cbn [Qnum Qden].
  rewrite Pos2Z.inj_pow. change (Z.pos 2) with 2. change (Z.pos 1074) with 1074. lia.
Qed.

Lemma Qle_bool_ticks_r (c : Z) (q : Q) (t : Z) :
  (q == t # (2 ^ 1074)%positive)%Q →
  Qle_bool q (inject_Z c) = true ↔ t <= c * 2 ^ 1074.
Proof.
  intros Hq. rewrite Qle_bool_iff, Hq. unfold Qle, inject_Z. cbn [Qnum Qden].
  rewrite Pos2Z.inj_pow. change (Z.pos 2) with 2. change (Z.pos 1074) with 1074. lia.
Qed.

(** The chained comparison of the code decides membership in the interval
    of the table. *)
Lemma chained_le_in_bounds fld x :
  valid x → chained_le (field_min fld) x (field_max fld) = in_bounds fld x.
Proof.
  intros V. destruct (is_finite x) eqn:F.
  - destruct (field_bounds_valid fld) as [Vlo Vhi].
    destruct (field_bounds_finite fld) as [Flo Fhi].
    destruct (field_bounds_ticks fld) as [Tlo Thi].
    destruct (value_ticks x V F) as (q & Hv & Hq).
    unfold chained_le, in_bounds. rewrite Hv.
    apply eq_true_iff_eq. rewrite !andb_true_iff.
    rewrite (le_ticks _ _ Vlo V Flo F), (le_ticks _ _ V Vhi F Fhi).
    rewrite (Qle_bool_ticks_l _ _ _ Hq), (Qle_bool_ticks_r _ _ _ Hq).
    rewrite Tlo, Thi. reflexivity.
  - destruct x as [s|s| |s m e]; try discriminate.
    + destruct fld, s; reflexivity.
    + destruct fld; reflexivity.
Qed.

(** The if-chain returns the message of the first reading outside its
    interval. *)
Lemma validate_refines volt temp dust light :
  valid volt → valid temp → valid dust → valid light →
  validate_sensor_inputs volt temp dust light =
    (λ r, violation_message r.1 r.2) <$> first_violation (readings volt temp dust light).
Proof.
  intros Vv Vt Vd Vl. unfold validate_sensor_inputs, first_violation, readings.
  change VOLT_MIN with (field_min Voltage). change VOLT_MAX with (field_max Voltage).
  change TEMP_MIN with (field_min Temperature). change TEMP_MAX with (field_max Temperature).
  change DUST_MIN with (field_min Dust). change DUST_MAX with (field_max Dust).
  change LIGHT_MIN with (field_min Irradiance). change LIGHT_MAX with (field_max Irradiance).
  rewrite !chained_le_in_bounds by assumption. cbn [List.find fst snd].
  destruct (in_bounds Voltage volt); [|reflexivity].
  destruct (in_bounds Temperature temp); [|reflexivity].
  destruct (in_bounds Dust dust); [|reflexivity].
  destruct (in_bounds Irradiance light); reflexivity.
Qed.


Lemma in_bounds_within fld x : in_bounds fld x = true ↔ within fld x.
Proof.
  unfold in_bounds, within. destruct (value x) as [q|].
  - rewrite andb_true_iff, !Qle_bool_iff. split.
    + intros [? ?]. exists q. done.
    + intros (q' & [= <-] & ? & ?). done.
  - split; [done|]. intros (q & [=] & _).
Qed.

Lemma find_first_split {A} (p : A → bool) l x :
  List.find p l = Some x →
  ∃ before after, l = before ++ x :: after ∧ Forall (λ y, p y = false) before ∧ p x = true.
Proof.
  induction l as [|a l IH]; [done|]. cbn [List.find].
  destruct (p a) eqn:Hp.
  - intros [= <-]. exists [], l. done.
  - intros (before & after & -> & Hb & Hx)%IH.
    exists (a :: before), after. split; [done|]. split; [|done]. by constructor.
Qed.

Lemma find_none_Forall {A} (p : A → bool) l :
  List.find p l = None ↔ Forall (λ y, p y = false) l.
Proof.
  induction l as [|a l IH]; cbn [List.find].
  - split; [constructor|done].
  - destruct (p a) eqn:Hp.
    + split; [done|]. intros H. inversion H; congruence.
    + rewrite IH. split; [by constructor|]. by inversion 1.
Qed.

End ValidationFacts.

(** The two halves of the refinement, on the interval predicate. *)
Lemma validate_none_iff volt temp dust light :
  valid volt → valid temp → valid dust → valid light →
  validate_sensor_inputs volt temp dust light = None ↔
    within Voltage volt ∧ within Temperature temp ∧
    within Dust dust ∧ within Irradiance light.
Proof.
  intros Vv Vt Vd Vl. rewrite (validate_refines _ _ _ _ Vv Vt Vd Vl).
  rewrite fmap_None. unfold first_violation. rewrite find_none_Forall.
  unfold readings. rewrite !Forall_cons, Forall_nil. cbn [fst snd].
  rewrite !negb_false_iff, !in_bounds_within. tauto.
Qed.

Lemma validate_some_first volt temp dust light msg :
  valid volt → valid temp → valid dust → valid light →
  validate_sensor_inputs volt temp dust light = Some msg →
  ∃ before fld x after,
    readings volt temp dust light = before ++ (fld, x) :: after ∧
    Forall (λ r, within r.1 r.2) before ∧
    ¬ within fld x ∧
    msg = violation_message fld x.
Proof.
  intros Vv Vt Vd Vl. rewrite (validate_refines _ _ _ _ Vv Vt Vd Vl).
  intros ((fld & x) & Hf & ->)%fmap_Some.
  apply find_first_split in Hf as (before & after & Hl & Hb & Hx).
  exists before, fld, x, after. split; [done|]. split; [|split; [|done]].
  - eapply Forall_impl; [exact Hb|]. intros [f y]. cbn [fst snd].
    rewrite negb_false_iff. apply in_bounds_within.
  - cbn [fst snd] in Hx. rewrite negb_true_iff in Hx.
    rewrite <- in_bounds_within. congruence.
Qed.

(** C2.  On well-formed floats, [validate_sensor_inputs] returns [None]
    exactly when the four readings are numbers inside their intervals
    (voltage in [-5, 20], temperature in [-50, 60], dust in [0, 1000],
    irradiance in [-10, 20000]); when it returns a message, that message is
    the one of the first reading, in the order voltage, temperature, dust,
    irradiance, that is not inside its interval. *)
Theorem validate_sensor_inputs_spec volt temp dust light :
  valid volt → valid temp → valid dust → valid light →
  (validate_sensor_inputs volt temp dust light = None ↔
     within Voltage volt ∧ within Temperature temp ∧
     within Dust dust ∧ within Irradiance light) ∧
  (∀ msg, validate_sensor_inputs volt temp dust light = Some msg →
     ∃ before fld x after,
       readings volt temp dust light = before ++ (fld, x) :: after ∧
       Forall (λ r, within r.1 r.2) before ∧
       ¬ within fld x ∧
       msg = violation_message fld x).
Proof.
  intros Vv Vt Vd Vl. split.
  - by apply validate_none_iff.
  - intros msg Hmsg. by apply validate_some_first.
Qed.

Lemma validate_sensor_inputs_spec_witness :
  (validate_sensor_inputs (of_Z 12) (of_Z 75) (of_Z 5) (of_Z 800) = None ↔
     within Voltage (of_Z 12) ∧ within Temperature (of_Z 75) ∧
     within Dust (of_Z 5) ∧ within Irradiance (of_Z 800)) ∧
  (∀ msg, validate_sensor_inputs (of_Z 12) (of_Z 75) (of_Z 5) (of_Z 800) = Some msg →
     ∃ before fld x after,
       readings (of_Z 12) (of_Z 75) (of_Z 5) (of_Z 800) = before ++ (fld, x) :: after ∧
       Forall (λ r, within r.1 r.2) before ∧
       ¬ within fld x ∧
       msg = violation_message fld x).
Proof.
  apply (validate_sensor_inputs_spec (of_Z 12) (of_Z 75) (of_Z 5) (of_Z 800));
    vm_compute; reflexivity.
Defined.

(** ** The handler, step by step *)

Section HandlerFacts.

Variable float_of_str : string → option float.

Lemma fault_label : LABEL_MAP !! 4%nat = Some "Sensor Error / ค่าผิดปกติเกินขอบเขต".
Proof. vm_compute. reflexivity. Qed.

(** Past the availability gate the handler dispatches on the method. *)
Lemma predict_loaded req w :
  loaded w →
  predict float_of_str req w =
    match method req with
    | OPTIONS => (Ok (Text "", 204), w)
    | POST =>
        match get_json req with
        | Ok data =>
            match py_all_in data required_keys with
            | Ok true => try_except (predict_try float_of_str data) (predict_except) w
            | Ok false =>
                (Ok (jsonify {[ "error" := PStr ("Missing one or more required keys: "
                                                 +:+ repr_str_list required_keys) ]}, 400), w)
            | Raise e => (Raise e, w)
            end
        | Raise e => (Raise e, w)
        end
    end.
Proof.
  intros [[m Hm] [s Hs]]. unfold predict, bind, read_globals, lift, ret.
  rewrite Hm, Hs. cbn [is_none orb].
  destruct (method req); [|reflexivity].
  destruct (get_json req) as [data|e]; [|reflexivity].
  destruct (py_all_in data required_keys) as [[]|e]; reflexivity.
Qed.

Lemma py_all_in_dict m :
  py_all_in (PDict m) required_keys =
    Ok (forallb (λ k, bool_decide (is_Some (m !! k))) required_keys).
Proof.
  unfold required_keys. cbn [py_all_in py_contains res_bind forallb].
  repeat (case_bool_decide; cbn [andb]; [|reflexivity]). reflexivity.
Qed.

Lemma float_field_reads data k x w :
  reads float_of_str data k x → float_field float_of_str data k w = (Ok x, w).
Proof.
  intros (m & v & -> & Hk & Hv). unfold float_field, lift. cbn [py_getitem].
  rewrite Hk. cbn [res_bind]. by rewrite Hv.
Qed.

Lemma parses_present data volt temp dust light :
  parses float_of_str data volt temp dust light → py_all_in data required_keys = Ok true.
Proof.
  intros ((m & v1 & -> & H1 & _) & (m2 & v2 & [= <-] & H2 & _) &
          (m3 & v3 & [= <-] & H3 & _) & (m4 & v4 & [= <-] & H4 & _)).
  rewrite py_all_in_dict. f_equal. unfold required_keys. cbn [forallb].
  rewrite !bool_decide_eq_true_2; [done|by eexists..].
Qed.

Lemma predict_try_parses data volt temp dust light w :
  parses float_of_str data volt temp dust light →
  predict_try float_of_str data w =
    match validate_sensor_inputs volt temp dust light with
    | Some validation_error =>
        if negb (String.eqb validation_error "") then
          bind (label_at 4) (λ fault,
            ret (jsonify {[ "result" := PStr fault; "error" := PStr validation_error ]}, 400)) w
        else classify volt temp dust light w
    | None => classify volt temp dust light w
    end.
Proof.
  intros (Hv & Ht & Hd & Hl). unfold predict_try.
  unfold bind at 1. rewrite (float_field_reads _ _ _ _ Hv).
  unfold bind at 1. rewrite (float_field_reads _ _ _ _ Ht).
  unfold bind at 1. rewrite (float_field_reads _ _ _ _ Hd).
  unfold bind at 1. rewrite (float_field_reads _ _ _ _ Hl).
  destruct (validate_sensor_inputs volt temp dust light) as [msg|]; [|reflexivity].
  destruct (negb (String.eqb msg "")); reflexivity.
Qed.

(** Every message of the validation is a non-empty string, hence true in a
    condition. *)
Lemma validate_message_truthy volt temp dust light msg :
  validate_sensor_inputs volt temp dust light = Some msg → negb (String.eqb msg "") = true.
Proof.
  unfold validate_sensor_inputs.
  repeat (case_match; [intros [= <-]; reflexivity|]). done.
Qed.

(** A request whose fields parse and that fails the validation is answered
    with the label of class 4 and the message, and nothing else happens. *)
Lemma predict_rejects data volt temp dust light msg w :
  loaded w → g_LABEL_MAP (w_globals w) = LABEL_MAP →
  parses float_of_str data volt temp dust light →
  validate_sensor_inputs volt temp dust light = Some msg →
  predict float_of_str {| method := POST; get_json := Ok data |} w =
    (Ok (fault_body "Sensor Error / ค่าผิดปกติเกินขอบเขต" msg, 400), w).
Proof.
  intros Hl Hlab Hp Hv. rewrite (predict_loaded _ _ Hl). cbn [method get_json].
  rewrite (parses_present _ _ _ _ _ Hp). unfold try_except.
  rewrite (predict_try_parses _ _ _ _ _ _ Hp), Hv.
  rewrite (validate_message_truthy _ _ _ _ _ Hv).
  unfold bind, label_at, read_globals, bind. rewrite Hlab, fault_label. reflexivity.
Qed.


Lemma predict_try_in_range data volt temp dust light w :
  parses float_of_str data volt temp dust light →
  validate_sensor_inputs volt temp dust light = None →
  predict_try float_of_str data w = classify volt temp dust light w.
Proof. intros Hp Hv. by rewrite (predict_try_parses _ _ _ _ _ _ Hp), Hv. Qed.

(** Whatever the artifacts answer, the calls the classification makes are
    one to the scaler, on the vector in training order, then one to the
    classifier on what the scaler returned. *)
Lemma classify_calls volt temp dust light w md sc :
  g_model (w_globals w) = Some md → g_scaler (w_globals w) = Some sc →
  w_calls (try_except (classify volt temp dust light) predict_except w).2 =
    w_calls w ++ CallTransform [[volt; dust; temp; light]] ::
      match transform sc [[volt; dust; temp; light]] with
      | Ok scaled_input => [CallPredict scaled_input]
      | Raise _ => []
      end.
Proof.
  intros Hm Hs.
  unfold try_except, classify, scaler_transform, model_predict_call, predict_except,
    bind, read_globals, record_call, print_stderr, lift, ret.
  cbn [w_globals w_calls w_stderr]. rewrite Hs. cbn [w_globals w_calls w_stderr].
  destruct (transform sc _) as [scaled|e]; cbn [w_globals w_calls w_stderr fst snd].
  - rewrite Hm. cbn [w_globals w_calls w_stderr fst snd].
    repeat (case_match; cbn [w_globals w_calls w_stderr fst snd]; simplify_eq);
      by rewrite <- app_assoc.
  - by repeat (case_match; cbn [w_globals w_calls w_stderr fst snd]; simplify_eq).
Qed.

Lemma append_assoc (s1 s2 s3 : string) : (s1 +:+ s2) +:+ s3 = s1 +:+ (s2 +:+ s3).
Proof.
  induction s1 as [|c s1 IH]; [reflexivity|].
  change (String c ((s1 +:+ s2) +:+ s3) = String c (s1 +:+ (s2 +:+ s3))). by rewrite IH.
Qed.

Lemma nan_not_within fld x : is_nan x = true → ¬ within fld x.
Proof. destruct x; try discriminate. intros _ (q & [=] & _). Qed.

Lemma mentions_violation fld x :
  let msg := violation_message fld x in
  mentions msg (field_name fld) ∧ mentions msg (format_2f x) ∧
  mentions msg (bound_text (bounds fld).1) ∧ mentions msg (bound_text (bounds fld).2).
Proof.
  cbn zeta. unfold mentions, violation_message. repeat split.
  - eexists "Input Error: ", _. reflexivity.
  - exists ("Input Error: " +:+ field_name fld +:+ " ("). eexists.
    destruct fld; reflexivity.
  - exists ("Input Error: " +:+ field_name fld +:+ " (" +:+ format_2f x +:+ field_unit fld
            +:+ ") อยู่นอกขอบเขตที่รับได้ ("). eexists.
    rewrite !append_assoc. reflexivity.
  - exists ("Input Error: " +:+ field_name fld +:+ " (" +:+ format_2f x +:+ field_unit fld
            +:+ ") อยู่นอกขอบเขตที่รับได้ (" +:+ bound_text (bounds fld).1 +:+ field_unit fld
            +:+ " ถึง "). eexists.
    rewrite !append_assoc. reflexivity.
Qed.

End HandlerFacts.

(** ** What the formatted value stands for *)

Section DecimalFacts.

Lemma digit_of_pretty d : (d < 10)%N → digit_of (pretty_N_char d) = Some d.
Proof.
  intros H.
  assert (d = 0 ∨ d = 1 ∨ d = 2 ∨ d = 3 ∨ d = 4 ∨ d = 5 ∨ d = 6 ∨ d = 7 ∨ d = 8 ∨ d = 9)%N
    as Hd by lia.
  repeat (destruct Hd as [->|Hd]; [reflexivity|]). by subst.
Qed.

Lemma pretty_char_not_point d : (N_of_ascii (pretty_N_char d) =? 46)%N = false.
Proof. unfold pretty_N_char. by repeat case_match. Qed.

(** Reading the digits that [pretty] wrote gives the number back. *)
Lemma read_int_pretty_go x :
  ∃ k : N, ∀ acc s,
    read_int_part acc (pretty_N_go x s) = read_int_part (acc * 10 ^ k + x)%N s.
Proof.
  induction (N.lt_wf_0 x) as [x _ IH].
  destruct (decide (x = 0)%N) as [->|Hx].
  - exists 0%N. intros acc s. rewrite pretty_N_go_0. f_equal. lia.
  - destruct (IH (x `div` 10)%N) as [k Hk]; [apply N.div_lt; lia|].
    exists (k + 1)%N. intros acc s. rewrite pretty_N_go_step by lia. rewrite Hk.
    cbn [read_int_part]. rewrite pretty_char_not_point.
    rewrite digit_of_pretty by (apply N.mod_lt; lia). f_equal.
    rewrite N.pow_add_r, N.pow_1_r.
    pose proof (N.div_mod x 10 ltac:(lia)). lia.
Qed.

Lemma pretty_N_go_app x s t : pretty_N_go x s +:+ t = pretty_N_go x (s +:+ t).
Proof.
  revert s. induction (N.lt_wf_0 x) as [x _ IH]; intros s.
  destruct (decide (x = 0)%N) as [->|Hx]; [by rewrite !pretty_N_go_0|].
  rewrite (pretty_N_go_step x s), (pretty_N_go_step x (s +:+ t)) by lia.
  rewrite IH by (apply N.div_lt; lia). reflexivity.
Qed.

Lemma read_int_pretty (n : N) rest :
  read_int_part 0 (pretty n +:+ "." +:+ rest) = Some (n, rest).
Proof.
  unfold pretty, pretty_N. destruct (decide (n = 0)%N) as [->|Hn]; [reflexivity|].
  rewrite pretty_N_go_app. destruct (read_int_pretty_go n) as [k Hk]. rewrite Hk.
  replace (0 * 10 ^ k + n)%N with n by lia. reflexivity.
Qed.

Lemma pretty_Z_nonneg z : 0 <= z → pretty z = pretty (Z.to_N z).
Proof. intros H. destruct z; [reflexivity|reflexivity|lia]. Qed.

Lemma two_digits_chars f :
  0 <= f < 100 →
  two_digits f = String (pretty_N_char (Z.to_N f `div` 10))
                   (String (pretty_N_char (Z.to_N f `mod` 10)) "").
Proof.
  intros Hf. unfold two_digits. rewrite (pretty_Z_nonneg f) by lia.
  set (n := Z.to_N f). assert (Hn : (n < 100)%N) by lia.
  unfold pretty, pretty_N.
  destruct (Z.ltb_spec f 10) as [H10|H10].
  - assert (n < 10)%N by lia.
    rewrite (N.div_small n 10), (N.mod_small n 10) by done.
    destruct (decide (n = 0)%N) as [->|Hn0]; [reflexivity|].
    rewrite pretty_N_go_step by lia.
    rewrite (N.div_small n 10), (N.mod_small n 10) by done. reflexivity.
  - assert (10 <= n)%N by lia.
    rewrite decide_False by lia.
    rewrite pretty_N_go_step by lia.
    assert (0 < n `div` 10 < 10)%N.
    { split; [apply N.div_str_pos; lia|apply N.Div0.div_lt_upper_bound; lia]. }
    rewrite pretty_N_go_step by lia.
    rewrite (N.div_small (n `div` 10) 10), (N.mod_small (n `div` 10) 10) by lia.
    reflexivity.
Qed.

Lemma read_unsigned_fixed2 i f :
  0 <= i → 0 <= f < 100 →
  read_unsigned (pretty i +:+ "." +:+ two_digits f) = Some (i * 100 + f # 100).
Proof.
  intros Hi Hf. unfold read_unsigned.
  rewrite (pretty_Z_nonneg i Hi), read_int_pretty, (two_digits_chars f Hf).
  cbn [read_frac_part].
  rewrite !digit_of_pretty by (first [apply N.mod_lt; lia | apply N.Div0.div_lt_upper_bound; lia]).
  cbn [N.add]. f_equal. f_equal.
  pose proof (N.div_mod (Z.to_N f) 10 ltac:(lia)). lia.
Qed.

Lemma read_unsigned_decimal s q : read_unsigned s = Some q → read_decimal s = Some q.
Proof.
  destruct s as [|c rest]; [done|]. unfold read_decimal.
  destruct (N_of_ascii c =? 45)%N eqn:Hc; [|done].
  apply N.eqb_eq in Hc. unfold read_unsigned. cbn [read_int_part].
  rewrite Hc. cbn. unfold digit_of. rewrite Hc. done.
Qed.


(** The division rounds to a nearest integer. *)
Lemma round_half_even_div_near n d :
  0 <= n → 0 < d →
  0 <= round_half_even_div n d ∧
  - d <= 2 * (round_half_even_div n d * d - n) <= d.
Proof.
  intros Hn Hd. unfold round_half_even_div.
  pose proof (Z.div_mod n d ltac:(lia)) as Hdm.
  pose proof (Z.mod_pos_bound n d Hd) as Hmod.
  pose proof (Z.div_pos n d Hn Hd) as Hq.
  destruct (Z.compare_spec (2 * (n mod d)) d) as [He|Hl|Hg].
  - destruct (Z.even (n / d)); split; nia.
  - split; nia.
  - split; nia.
Qed.

Lemma hundredths_nonneg m e : 0 <= hundredths m e.
Proof.
  unfold hundredths. destruct (Z.leb_spec 0 e).
  - assert (0 < 2 ^ e) by (apply Z.pow_pos_nonneg; lia). nia.
  - apply round_half_even_div_near; [lia|apply Z.pow_pos_nonneg; lia].
Qed.

Lemma Qpower_2_nonneg e : 0 <= e → (Qpower 2 e == inject_Z (2 ^ e))%Q.
Proof. intros He. by rewrite Zpower_Qpower. Qed.

Lemma Qpower_2_neg e : e < 0 → (Qpower 2 e == 1 # Z.to_pos (2 ^ (- e)))%Q.
Proof.
  intros He. replace e with (- (- e)) at 1 by lia.
  rewrite Qpower_opp, <- (Zpower_Qpower 2 (- e)) by lia.
  assert (0 < 2 ^ (- e)) by (apply Z.pow_pos_nonneg; lia).
  destruct (2 ^ (- e)) as [|p|p] eqn:Hp; try lia. reflexivity.
Qed.

(** The text of a finite float reads back as its value rounded to the
    nearest hundredth. *)
Lemma format_2f_finite s m e :
  ∃ q, read_decimal (format_2f (S754_finite s m e)) = Some q ∧
       (Qabs (q - inject_Z (signed s m) * Qpower 2 e) <= 1 # 200)%Q.
Proof.
  pose proof (hundredths_nonneg m e) as Hh.
  set (h := hundredths m e) in *.
  assert (Hread : read_unsigned (pretty (h / 100) +:+ "." +:+ two_digits (h mod 100)) =
                  Some (h # 100)).
  { rewrite read_unsigned_fixed2;
      [|apply Z.div_pos; lia|apply Z.mod_pos_bound; lia].
    f_equal. f_equal. pose proof (Z.div_mod h 100 ltac:(lia)). lia. }
  assert (Hnear : (Qabs ((h # 100) - inject_Z (Z.pos m) * Qpower 2 e) <= 1 # 200)%Q).
  { apply Qabs_Qle_condition. subst h. unfold hundredths in *.
    destruct (Z.leb_spec 0 e) as [He|He].
    - rewrite (Qpower_2_nonneg e He).
      assert (0 < 2 ^ e) by (apply Z.pow_pos_nonneg; lia).
      unfold Qle, Qminus, Qplus, Qopp, Qmult, inject_Z; cbn [Qnum Qden]. split; nia.
    - rewrite (Qpower_2_neg e He).
      assert (Hd : 0 < 2 ^ (- e)) by (apply Z.pow_pos_nonneg; lia).
      destruct (round_half_even_div_near (Z.pos m * 100) (2 ^ (- e)) ltac:(lia) Hd)
        as [_ Hr].
      set (r := round_half_even_div (Z.pos m * 100) (2 ^ (- e))) in *.
      unfold Qle, Qminus, Qplus, Qopp, Qmult, inject_Z; cbn [Qnum Qden].
      rewrite !Pos2Z.inj_mul, Z2Pos.id by lia.
      set (d := 2 ^ (- e)) in *. split; nia. }
  destruct s; cbn [format_2f signed].
  - exists (- (h # 100))%Q. split.
    + change (read_decimal
                (String "-"%char (pretty (h / 100) +:+ "." +:+ two_digits (h mod 100))) =
              Some (- (h # 100))%Q).
      unfold read_decimal. change (N_of_ascii "-" =? 45)%N with true.
      cbn iota. by rewrite Hread.
    + replace (Z.neg m) with (- Z.pos m) by lia.
      assert (Heq : (- (h # 100) - inject_Z (- Z.pos m) * 2 ^ e ==
                     - ((h # 100) - inject_Z (Z.pos m) * 2 ^ e))%Q)
        by (rewrite inject_Z_opp; ring).
      by rewrite Heq, Qabs_opp.
  - exists (h # 100). split; [|done].
    apply read_unsigned_decimal.
    change (read_unsigned (pretty (h / 100) +:+ "." +:+ two_digits (h mod 100)) =
            Some (h # 100)).
    exact Hread.
Qed.

(** What [format(x, '.2f')] writes shows [x]. *)
Lemma format_2f_shows x : shows (format_2f x) x.
Proof.
  destruct x as [s|s| |s m e]; unfold shows; cbn [value].
  - destruct s; eexists; (split; [reflexivity|]); vm_compute; discriminate.
  - by destruct s.
  - done.
  - apply format_2f_finite.
Qed.

Lemma bound_text_reads fld :
  reads_as (bound_text (bounds fld).1) (inject_Z (bounds fld).1) ∧
  reads_as (bound_text (bounds fld).2) (inject_Z (bounds fld).2).
Proof. destruct fld; split; eexists; (split; [vm_compute; reflexivity|]); reflexivity. Qed.

End DecimalFacts.

(** ** The response contract *)

(** C1.  With both artifacts loaded, a POST whose four fields parse as
    floats, at least one of them outside its interval, is answered with
    status 400, [result] set to the label of class 4 and [error] set to a
    message that names the offending field, then in parentheses its value,
    a decimal text that reads back as the value of the reading rounded to
    the nearest hundredth (or the name of the infinity or of NaN), then in
    parentheses the two ends of its interval, lower end first, as texts
    that read back as those two numbers; the world is left as it was. *)
Theorem predict_out_of_range float_of_str data volt temp dust light w :
  loaded w → g_LABEL_MAP (w_globals w) = LABEL_MAP →
  parses float_of_str data volt temp dust light →
  valid volt → valid temp → valid dust → valid light →
  ¬ (within Voltage volt ∧ within Temperature temp ∧
     within Dust dust ∧ within Irradiance light) →
  ∃ fault fld x msg value_text lo_text hi_text,
    LABEL_MAP !! 4%nat = Some fault ∧
    (fld, x) ∈ readings volt temp dust light ∧ ¬ within fld x ∧
    predict float_of_str (post data) w = (Ok (fault_body fault msg, 400), w) ∧
    msg = "Input Error: " +:+ field_name fld +:+ " (" +:+ value_text +:+ field_unit fld
          +:+ ") อยู่นอกขอบเขตที่รับได้ (" +:+ lo_text +:+ field_unit fld
          +:+ " ถึง " +:+ hi_text +:+ field_unit fld +:+ ")" ∧
    shows value_text x ∧
    reads_as lo_text (inject_Z (bounds fld).1) ∧
    reads_as hi_text (inject_Z (bounds fld).2) ∧
    mentions msg (field_name fld) ∧ mentions msg (format_2f x) ∧
    mentions msg (bound_text (bounds fld).1) ∧ mentions msg (bound_text (bounds fld).2).
Proof.
  intros Hl Hlab Hp Vv Vt Vd Vl Hout.
  destruct (validate_sensor_inputs volt temp dust light) as [msg|] eqn:Hv.
  - destruct (validate_some_first _ _ _ _ _ Vv Vt Vd Vl Hv)
      as (before & fld & x & after & Hr & _ & Hx & ->).
    exists "Sensor Error / ค่าผิดปกติเกินขอบเขต", fld, x, (violation_message fld x),
      (format_2f x), (bound_text (bounds fld).1), (bound_text (bounds fld).2).
    split; [apply fault_label|]. split; [rewrite Hr; set_solver|]. split; [done|].
    split; [by apply predict_rejects with volt temp dust light|].
    split; [reflexivity|]. split; [apply format_2f_shows|].
    split; [apply bound_text_reads|]. split; [apply bound_text_reads|].
    apply mentions_violation.
  - apply validate_none_iff in Hv; done.
Qed.

Lemma sample_parses v t d l :
  parses no_strings (sample_body (PFloat v) (PFloat t) (PFloat d) (PFloat l)) v t d l.
Proof. repeat split; eexists _, _; (split; [reflexivity|]); split; reflexivity. Qed.

Lemma ready_world_loaded : loaded ready_world.
Proof. split; eexists; reflexivity. Qed.

Lemma predict_out_of_range_witness :
  ∃ fault fld x msg value_text lo_text hi_text,
    LABEL_MAP !! 4%nat = Some fault ∧
    (fld, x) ∈ readings (of_Z 12) (of_Z 75) (of_Z 5) (of_Z 800) ∧ ¬ within fld x ∧
    predict no_strings
      (post (sample_body (PFloat (of_Z 12)) (PFloat (of_Z 75)) (PFloat (of_Z 5)) (PFloat (of_Z 800))))
      ready_world = (Ok (fault_body fault msg, 400), ready_world) ∧
    msg = "Input Error: " +:+ field_name fld +:+ " (" +:+ value_text +:+ field_unit fld
          +:+ ") อยู่นอกขอบเขตที่รับได้ (" +:+ lo_text +:+ field_unit fld
          +:+ " ถึง " +:+ hi_text +:+ field_unit fld +:+ ")" ∧
    shows value_text x ∧
    reads_as lo_text (inject_Z (bounds fld).1) ∧
    reads_as hi_text (inject_Z (bounds fld).2) ∧
    mentions msg (field_name fld) ∧ mentions msg (format_2f x) ∧
    mentions msg (bound_text (bounds fld).1) ∧ mentions msg (bound_text (bounds fld).2).
Proof.
  apply (predict_out_of_range no_strings _ (of_Z 12) (of_Z 75) (of_Z 5) (of_Z 800) ready_world).
  - exact ready_world_loaded.
  - reflexivity.
  - apply sample_parses.
  - reflexivity.
  - reflexivity.
  - reflexivity.
  - reflexivity.
  - intros (_ & (q & Hq & _ & Hhi) & _). injection Hq as <-. revert Hhi. vm_compute.
    intros H. apply H. reflexivity.
Defined.

(** C3.  For a request whose four readings are inside their intervals the
    scaler is called on the single row [voltage, dust, temperature,
    irradiance], dust and temperature swapped with respect to the order of
    the keys, and the classifier is then called on what the scaler
    returned; no other call is made.  The instance below is the request
    voltage 12.0, temperature 25.0, dust 5.0, irradiance 800.0, whose row
    is [12.0, 5.0, 25.0, 800.0]. *)
Theorem predict_feature_order float_of_str data volt temp dust light w md sc :
  g_model (w_globals w) = Some md → g_scaler (w_globals w) = Some sc →
  parses float_of_str data volt temp dust light →
  valid volt → valid temp → valid dust → valid light →
  within Voltage volt → within Temperature temp → within Dust dust → within Irradiance light →
  w_calls (predict float_of_str (post data) w).2 =
    w_calls w ++ CallTransform [[volt; dust; temp; light]] ::
      match transform sc [[volt; dust; temp; light]] with
      | Ok scaled_input => [CallPredict scaled_input]
      | Raise _ => []
      end.
Proof.
  intros Hm Hs Hp Vv Vt Vd Vl Wv Wt Wd Wl.
  assert (Hl : loaded w) by (split; eexists; eassumption).
  assert (Hv : validate_sensor_inputs volt temp dust light = None)
    by (apply validate_none_iff; done).
  rewrite (predict_loaded _ _ _ Hl). cbn [post method get_json].
  rewrite (parses_present _ _ _ _ _ _ Hp).
  rewrite <- (classify_calls volt temp dust light w md sc Hm Hs).
  unfold try_except. by rewrite (predict_try_in_range _ _ _ _ _ _ _ Hp Hv).
Qed.

Lemma predict_feature_order_witness :
  w_calls (predict no_strings
             (post (sample_body (PFloat (of_Z 12)) (PFloat (of_Z 25))
                                (PFloat (of_Z 5)) (PFloat (of_Z 800))))
             ready_world).2 =
    w_calls ready_world ++ CallTransform [[of_Z 12; of_Z 5; of_Z 25; of_Z 800]] ::
      match transform identity_scaler [[of_Z 12; of_Z 5; of_Z 25; of_Z 800]] with
      | Ok scaled_input => [CallPredict scaled_input]
      | Raise _ => []
      end.
Proof.
  apply (predict_feature_order no_strings _ (of_Z 12) (of_Z 25) (of_Z 5) (of_Z 800)
           ready_world constant_model identity_scaler);
    try reflexivity; try apply sample_parses;
    apply in_bounds_within; vm_compute; reflexivity.
Defined.

(** C4.  When the model or the scaler is [None], every call of the
    handler, whatever the method and the body, valid or not, returns status
    503 with the service-unavailable error and leaves the world untouched:
    neither artifact is called. *)
Theorem predict_unavailable float_of_str req w :
  g_model (w_globals w) = None ∨ g_scaler (w_globals w) = None →
  predict float_of_str req w =
    (Ok (jsonify {[ "error" := PStr "Model or Scaler not loaded. Service unavailable." ]}, 503), w)
  ∧ w_calls (predict float_of_str req w).2 = w_calls w.
Proof.
  intros H.
  assert (E : predict float_of_str req w =
    (Ok (jsonify {[ "error" := PStr "Model or Scaler not loaded. Service unavailable." ]}, 503), w)).
  { unfold predict, bind, read_globals, ret.
    destruct H as [-> | ->]; [reflexivity|].
    destruct (g_model (w_globals w)); reflexivity. }
  by rewrite E.
Qed.

Lemma predict_unavailable_witness :
  predict no_strings (post (sample_body (PInt 12) (PInt 25) (PInt 5) (PInt 800))) degraded_world =
    (Ok (jsonify {[ "error" := PStr "Model or Scaler not loaded. Service unavailable." ]}, 503),
     degraded_world)
  ∧ w_calls (predict no_strings (post (sample_body (PInt 12) (PInt 25) (PInt 5) (PInt 800)))
               degraded_world).2 = w_calls degraded_world.
Proof.
  apply (predict_unavailable no_strings
           (post (sample_body (PInt 12) (PInt 25) (PInt 5) (PInt 800))) degraded_world).
  left. reflexivity.
Defined.


(** C5, amended.  With both artifacts loaded, an OPTIONS request is
    answered with the empty body and status 204, whatever the body of the
    request. *)
Theorem predict_options_loaded float_of_str body w :
  loaded w →
  predict float_of_str {| method := OPTIONS; get_json := body |} w = (Ok (Text "", 204), w).
Proof. intros Hl. by rewrite (predict_loaded _ _ _ Hl). Qed.

Lemma predict_options_loaded_witness :
  predict no_strings {| method := OPTIONS; get_json := Ok PNone |} ready_world =
    (Ok (Text "", 204), ready_world).
Proof.
  apply (predict_options_loaded no_strings (Ok PNone) ready_world).
  exact ready_world_loaded.
Defined.

(** C5 as stated fails where an artifact is missing: the availability
    gate comes first and the OPTIONS request gets the 503 response. *)
Lemma predict_options_degraded :
  (predict no_strings {| method := OPTIONS; get_json := Ok PNone |} degraded_world).1 =
    Ok (jsonify {[ "error" := PStr "Model or Scaler not loaded. Service unavailable." ]}, 503)
  ∧ (predict no_strings {| method := OPTIONS; get_json := Ok PNone |} degraded_world).1 ≠
    Ok (Text "", 204).
Proof. split; [reflexivity|discriminate]. Qed.

(** C8.  With both artifacts loaded, a POST whose body is an object that
    lacks at least one of the four keys is answered with status 400 and an
    error message that lists the four required keys. *)
Theorem predict_missing_key float_of_str m w :
  loaded w →
  (∃ k, k ∈ required_keys ∧ m !! k = None) →
  ∃ msg,
    predict float_of_str (post (PDict m)) w = (Ok (jsonify {[ "error" := PStr msg ]}, 400), w) ∧
    msg = "Missing one or more required keys: ['voltage', 'temperature', 'dust', 'irradiance']" ∧
    Forall (mentions msg) required_keys.
Proof.
  intros Hl (k & Hk & Hm). eexists. split; [|split; [reflexivity|]].
  - rewrite (predict_loaded _ _ _ Hl). cbn [post method get_json].
    rewrite py_all_in_dict.
    assert (forallb (λ k, bool_decide (is_Some (m !! k))) required_keys = false) as ->.
    { apply not_true_is_false. intros Hall.
      rewrite forallb_forall in Hall.
      specialize (Hall k (proj1 (list_elem_of_In _ _) Hk)).
      apply bool_decide_eq_true in Hall. rewrite Hm in Hall. by destruct Hall. }
    reflexivity.
  - repeat constructor.
    + by exists "Missing one or more required keys: ['", "', 'temperature', 'dust', 'irradiance']".
    + by exists "Missing one or more required keys: ['voltage', '", "', 'dust', 'irradiance']".
    + by exists "Missing one or more required keys: ['voltage', 'temperature', '", "', 'irradiance']".
    + by exists "Missing one or more required keys: ['voltage', 'temperature', 'dust', '", "']".
Qed.

Lemma predict_missing_key_witness :
  ∃ msg,
    predict no_strings (post (PDict {[ "voltage" := PInt 12; "dust" := PInt 5 ]})) ready_world =
      (Ok (jsonify {[ "error" := PStr msg ]}, 400), ready_world) ∧
    msg = "Missing one or more required keys: ['voltage', 'temperature', 'dust', 'irradiance']" ∧
    Forall (mentions msg) required_keys.
Proof.
  apply (predict_missing_key no_strings {[ "voltage" := PInt 12; "dust" := PInt 5 ]} ready_world).
  - exact ready_world_loaded.
  - exists "temperature". split; [|reflexivity]. unfold required_keys. set_solver.
Defined.

(** What the two [except] clauses make of an exception raised in the
    [try] block. *)
Lemma predict_raises float_of_str data w e w' :
  loaded w → py_all_in data required_keys = Ok true →
  predict_try float_of_str data w = (Raise e, w') →
  predict float_of_str (post data) w = predict_except e w'.
Proof.
  intros Hl Hk Ht. rewrite (predict_loaded _ _ _ Hl). cbn [post method get_json].
  rewrite Hk. unfold try_except. by rewrite Ht.
Qed.

Lemma predict_value_error float_of_str data w e w' :
  loaded w → py_all_in data required_keys = Ok true →
  predict_try float_of_str data w = (Raise e, w') →
  is_ValueError e = true →
  predict float_of_str (post data) w =
    (Ok (jsonify {[ "error" := PStr "Invalid data format. All inputs must be numerical." ]}, 400),
     w').
Proof.
  intros Hl Hk Ht He. rewrite (predict_raises _ _ _ _ _ Hl Hk Ht).
  unfold predict_except. by rewrite He.
Qed.

(** A voltage that is a string without a float reading is answered with
    400 and the format message, whatever the other three fields hold. *)
Lemma predict_unparsable_voltage float_of_str s t d l w :
  loaded w → float_of_str s = None →
  predict float_of_str (post (sample_body (PStr s) t d l)) w =
    (Ok (jsonify {[ "error" := PStr "Invalid data format. All inputs must be numerical." ]}, 400),
     w).
Proof.
  intros Hl Hs.
  apply predict_value_error
    with (e := PyExc ValueError ("could not convert string to float: '" +:+ s +:+ "'")).
  - done.
  - unfold sample_body. rewrite py_all_in_dict. reflexivity.
  - unfold predict_try, bind, float_field, lift, sample_body.
    cbn [py_getitem]. rewrite lookup_insert_eq. cbn [res_bind py_float]. by rewrite Hs.
  - reflexivity.
Qed.

(** C6, amended.  When the [try] block raises an exception that is not a
    [ValueError], the handler prints a line with the text of the exception
    on standard error and returns status 500 with the message
    [Internal server error during prediction: ] followed by that same
    text. *)
Theorem predict_internal_error float_of_str data w e w' :
  loaded w → py_all_in data required_keys = Ok true →
  predict_try float_of_str data w = (Raise e, w') →
  is_ValueError e = false →
  predict float_of_str (post data) w =
    (Ok (jsonify {[ "error" := PStr ("Internal server error during prediction: "
                                     +:+ exc_str e) ]}, 500),
     {| w_globals := w_globals w';
        w_stderr := w_stderr w' ++ ["Prediction Error (Internal Server): " +:+ exc_str e];
        w_calls := w_calls w' |}).
Proof.
  intros Hl Hk Ht He. rewrite (predict_raises _ _ _ _ _ Hl Hk Ht).
  unfold predict_except. rewrite He. reflexivity.
Qed.

Lemma predict_internal_error_witness :
  predict no_strings (post (sample_body PNone (PInt 25) (PInt 5) (PInt 800))) ready_world =
    (Ok (jsonify {[ "error" := PStr ("Internal server error during prediction: "
                     +:+ "float() argument must be a string or a real number, not 'NoneType'") ]},
         500),
     {| w_globals := w_globals ready_world;
        w_stderr := w_stderr ready_world ++
          ["Prediction Error (Internal Server): "
           +:+ "float() argument must be a string or a real number, not 'NoneType'"];
        w_calls := w_calls ready_world |}).
Proof.
  apply (predict_internal_error no_strings
           (sample_body PNone (PInt 25) (PInt 5) (PInt 800)) ready_world
           (PyExc TypeError "float() argument must be a string or a real number, not 'NoneType'")
           ready_world).
  - exact ready_world_loaded.
  - reflexivity.
  - reflexivity.
  - reflexivity.
Defined.

(** C6 as stated fails: on a body that is the list of the four key names,
    indexing the list with a string raises [TypeError], and the text of
    that exception is returned to the caller inside the error message. *)
Lemma internal_error_text_returned :
  let data := PList [PStr "voltage"; PStr "temperature"; PStr "dust"; PStr "irradiance"] in
  let text := "list indices must be integers or slices, not str" in
  predict_try no_strings data ready_world = (Raise (PyExc TypeError text), ready_world) ∧
  (predict no_strings (post data) ready_world).1 =
    Ok (jsonify {[ "error" := PStr ("Internal server error during prediction: " +:+ text) ]}, 500) ∧
  mentions ("Internal server error during prediction: " +:+ text) text.
Proof.
  cbn zeta. split; [reflexivity|]. split; [reflexivity|].
  by exists "Internal server error during prediction: ", "".
Qed.

(** C7 at a [null] voltage, the three other fields being numbers in
    range: [float(None)] raises [TypeError], which the [ValueError] clause
    does not catch, so the answer is the 500 response of the catch-all
    clause and not the 400 response with the format message. *)
Theorem predict_null_voltage float_of_str :
  (predict float_of_str (post (sample_body PNone (PInt 25) (PInt 5) (PInt 800))) ready_world).1 =
    Ok (jsonify {[ "error" := PStr "Internal server error during prediction: float() argument must be a string or a real number, not 'NoneType'" ]}, 500)
  ∧ (predict float_of_str (post (sample_body PNone (PInt 25) (PInt 5) (PInt 800))) ready_world).1 ≠
    Ok (jsonify {[ "error" := PStr "Invalid data format. All inputs must be numerical." ]}, 400).
Proof.
  assert (E : (predict float_of_str (post (sample_body PNone (PInt 25) (PInt 5) (PInt 800)))
                 ready_world).1 =
    Ok (jsonify {[ "error" := PStr "Internal server error during prediction: float() argument must be a string or a real number, not 'NoneType'" ]}, 500)).
  { rewrite (predict_raises float_of_str _ ready_world
               (PyExc TypeError "float() argument must be a string or a real number, not 'NoneType'")
               ready_world); [reflexivity|exact ready_world_loaded|reflexivity..]. }
  split; [exact E|]. rewrite E. intros [=].
Qed.

(** C10.  When at least one of the four parsed values is NaN, the
    validation returns the message of the first reading, in the order
    voltage, temperature, dust, irradiance, that is NaN or otherwise not
    inside its interval; the request is answered with status 400 and that
    message, and neither the scaler nor the classifier is called. *)
Theorem predict_nan_rejected float_of_str data volt temp dust light w :
  loaded w → g_LABEL_MAP (w_globals w) = LABEL_MAP →
  parses float_of_str data volt temp dust light →
  valid volt → valid temp → valid dust → valid light →
  is_nan volt || is_nan temp || is_nan dust || is_nan light = true →
  ∃ before fld x after,
    readings volt temp dust light = before ++ (fld, x) :: after ∧
    Forall (λ r, within r.1 r.2) before ∧
    ¬ within fld x ∧
    validate_sensor_inputs volt temp dust light = Some (violation_message fld x) ∧
    predict float_of_str (post data) w =
      (Ok (fault_body "Sensor Error / ค่าผิดปกติเกินขอบเขต" (violation_message fld x), 400), w) ∧
    w_calls (predict float_of_str (post data) w).2 = w_calls w.
Proof.
  intros Hl Hlab Hp Vv Vt Vd Vl Hnan.
  destruct (validate_sensor_inputs volt temp dust light) as [msg|] eqn:Hv.
  - destruct (validate_some_first _ _ _ _ _ Vv Vt Vd Vl Hv)
      as (before & fld & x & after & Hr & Hb & Hx & ->).
    exists before, fld, x, after. repeat (split; [done|]).
    unfold post. rewrite (predict_rejects _ _ _ _ _ _ _ _ Hl Hlab Hp Hv). done.
  - apply validate_none_iff in Hv as (Wv & Wt & Wd & Wl); [|done..].
    rewrite !orb_true_iff in Hnan.
    destruct Hnan as [[[H|H]|H]|H]; eapply nan_not_within in H; by destruct H.
Qed.

Lemma predict_nan_rejected_witness :
  ∃ before fld x after,
    readings (of_Z 12) S754_nan (of_Z 5) (of_Z 800) = before ++ (fld, x) :: after ∧
    Forall (λ r, within r.1 r.2) before ∧
    ¬ within fld x ∧
    validate_sensor_inputs (of_Z 12) S754_nan (of_Z 5) (of_Z 800) =
      Some (violation_message fld x) ∧
    predict no_strings
      (post (sample_body (PFloat (of_Z 12)) (PFloat S754_nan) (PFloat (of_Z 5)) (PFloat (of_Z 800))))
      ready_world =
      (Ok (fault_body "Sensor Error / ค่าผิดปกติเกินขอบเขต" (violation_message fld x), 400),
       ready_world) ∧
    w_calls (predict no_strings
      (post (sample_body (PFloat (of_Z 12)) (PFloat S754_nan) (PFloat (of_Z 5)) (PFloat (of_Z 800))))
      ready_world).2 = w_calls ready_world.
Proof.
  apply (predict_nan_rejected no_strings _ (of_Z 12) S754_nan (of_Z 5) (of_Z 800) ready_world).
  - exact ready_world_loaded.
  - reflexivity.
  - apply sample_parses.
  - reflexivity.
  - reflexivity.
  - reflexivity.
  - reflexivity.
  - reflexivity.
Defined.

(** ** The handler reads its globals and nothing else *)

Section Purity.

Lemma res_rel_refl {A} (r : res A) : res_rel eq r r.
Proof. by destruct r. Qed.

Lemma res_rel_eq {A} (r1 r2 : res A) : res_rel eq r1 r2 → r1 = r2.
Proof. destruct r1, r2; cbn; intros; by subst. Qed.

Lemma pure_ret {A} (R : A → A → Prop) a1 a2 : R a1 a2 → pure_rel R (ret a1) (ret a2).
Proof. intros H w1 w2 _. done. Qed.

Lemma pure_lift {A} (R : A → A → Prop) r1 r2 : res_rel R r1 r2 → pure_rel R (lift r1) (lift r2).
Proof. intros H w1 w2 _. done. Qed.

Lemma pure_bind {A B} (R : A → A → Prop) (S : B → B → Prop) c1 c2 k1 k2 :
  pure_rel R c1 c2 →
  (∀ a1 a2, R a1 a2 → pure_rel S (k1 a1) (k2 a2)) →
  pure_rel S (bind c1 k1) (bind c2 k2).
Proof.
  intros Hc Hk w1 w2 Hw. destruct (Hc w1 w2 Hw) as (Hr & G1 & G2). unfold bind.
  destruct (c1 w1) as [[a1|e1] w1'], (c2 w2) as [[a2|e2] w2']; cbn in Hr, G1, G2; try done.
  destruct (Hk a1 a2 Hr w1' w2') as (Hs & G1' & G2'); [by rewrite G1, G2|].
  split; [done|]. split; congruence.
Qed.

Lemma pure_try_except {A} (R : A → A → Prop) b1 b2 h1 h2 :
  pure_rel R b1 b2 →
  (∀ e, pure_rel R (h1 e) (h2 e)) →
  pure_rel R (try_except b1 h1) (try_except b2 h2).
Proof.
  intros Hb Hh w1 w2 Hw. destruct (Hb w1 w2 Hw) as (Hr & G1 & G2). unfold try_except.
  destruct (b1 w1) as [[a1|e1] w1'], (b2 w2) as [[a2|e2] w2']; cbn in Hr, G1, G2; try done.
  subst e2. destruct (Hh e1 w1' w2') as (Hs & G1' & G2'); [by rewrite G1, G2|].
  split; [done|]. split; congruence.
Qed.

Lemma pure_read_globals : pure_rel same_artifacts read_globals read_globals.
Proof. intros w1 w2 Hw. done. Qed.

Lemma pure_print_stderr line : pure_rel eq (print_stderr line) (print_stderr line).
Proof. intros w1 w2 _. done. Qed.

Lemma pure_record_call c : pure_rel eq (record_call c) (record_call c).
Proof. intros w1 w2 _. done. Qed.

Lemma pure_scaler_transform x : pure_rel eq (scaler_transform x) (scaler_transform x).
Proof.
  apply pure_bind with same_artifacts; [apply pure_read_globals|].
  intros g1 g2 (_ & _ & Hs). destruct Hs as [s1 s2 Hs|].
  - apply pure_bind with eq; [apply pure_record_call|]. intros _ _ _.
    apply pure_lift. rewrite Hs. apply res_rel_refl.
  - by apply pure_lift.
Qed.

Lemma pure_model_predict_call x : pure_rel eq (model_predict_call x) (model_predict_call x).
Proof.
  apply pure_bind with same_artifacts; [apply pure_read_globals|].
  intros g1 g2 (_ & Hm & _). destruct Hm as [m1 m2 Hm|].
  - apply pure_bind with eq; [apply pure_record_call|]. intros _ _ _.
    apply pure_lift. rewrite Hm. apply res_rel_refl.
  - by apply pure_lift.
Qed.

Lemma pure_label_at i : pure_rel eq (label_at i) (label_at i).
Proof.
  apply pure_bind with same_artifacts; [apply pure_read_globals|].
  intros g1 g2 (-> & _ & _). destruct (g_LABEL_MAP g2 !! i).
  - by apply pure_ret.
  - by apply pure_lift.
Qed.

(** A step that only computes is related to itself. *)
Ltac pure_lifted x :=
  apply pure_bind with eq; [apply pure_lift, res_rel_refl|]; intros x _ <-.

Lemma pure_classify volt temp dust light :
  pure_rel eq (classify volt temp dust light) (classify volt temp dust light).
Proof.
  unfold classify. cbn zeta.
  apply pure_bind with eq; [apply pure_scaler_transform|]. intros scaled _ <-.
  apply pure_bind with eq; [apply pure_model_predict_call|]. intros prediction _ <-.
  pure_lifted row. pure_lifted idx.
  apply pure_bind with same_artifacts; [apply pure_read_globals|].
  intros g1 g2 (-> & _ & _).
  pure_lifted probs.
  by apply pure_ret.
Qed.

Variable float_of_str : string → option float.

Lemma pure_predict_try data :
  pure_rel eq (predict_try float_of_str data) (predict_try float_of_str data).
Proof.
  unfold predict_try, float_field.
  pure_lifted volt. pure_lifted temp. pure_lifted dust. pure_lifted light.
  destruct (validate_sensor_inputs volt temp dust light) as [msg|];
    [|apply pure_classify].
  destruct (negb (String.eqb msg "")); [|apply pure_classify].
  apply pure_bind with eq; [apply pure_label_at|]. intros fault _ <-.
  by apply pure_ret.
Qed.

Lemma pure_predict_except e : pure_rel eq (predict_except e) (predict_except e).
Proof.
  unfold predict_except. destruct (is_ValueError e); [by apply pure_ret|].
  apply pure_bind with eq; [apply pure_print_stderr|]. intros _ _ _. by apply pure_ret.
Qed.

Lemma pure_predict req : pure_rel eq (predict float_of_str req) (predict float_of_str req).
Proof.
  unfold predict.
  apply pure_bind with same_artifacts; [apply pure_read_globals|].
  intros g1 g2 (_ & Hm & Hs).
  assert (is_none (g_model g1) || is_none (g_scaler g1) =
          is_none (g_model g2) || is_none (g_scaler g2)) as ->.
  { by destruct Hm, Hs. }
  destruct (is_none (g_model g2) || is_none (g_scaler g2)); [by apply pure_ret|].
  destruct (method req); [|by apply pure_ret].
  pure_lifted data. pure_lifted present.
  destruct (negb present); [by apply pure_ret|].
  apply pure_try_except; [apply pure_predict_try|apply pure_predict_except].
Qed.

End Purity.

Lemma same_artifacts_refl g : same_artifacts g g.
Proof.
  split; [done|]. split.
  - destruct (g_model g); by constructor.
  - destruct (g_scaler g); by constructor.
Qed.

(** C9.  The response of the handler is a function of the request and of
    what the globals answer: from two worlds with the same label map and
    artifacts that return the same outputs, whatever was printed or
    called before, the same request gets the same response; and the call
    leaves the model, the scaler and the label map as they were. *)
Theorem predict_pure float_of_str req w1 w2 :
  same_artifacts (w_globals w1) (w_globals w2) →
  (predict float_of_str req w1).1 = (predict float_of_str req w2).1 ∧
  w_globals (predict float_of_str req w1).2 = w_globals w1 ∧
  w_globals (predict float_of_str req w2).2 = w_globals w2.
Proof.
  intros Hw. destruct (pure_predict float_of_str req w1 w2 Hw) as (Hr & G1 & G2).
  split; [by apply res_rel_eq|done].
Qed.

(** Two calls in a row with the same body give the same response. *)
Lemma predict_twice float_of_str req w :
  let after_first := (predict float_of_str req w).2 in
  (predict float_of_str req after_first).1 = (predict float_of_str req w).1 ∧
  w_globals (predict float_of_str req after_first).2 = w_globals w.
Proof.
  cbn zeta.
  destruct (pure_predict float_of_str req w w (same_artifacts_refl _)) as (_ & G & _).
  destruct (pure_predict float_of_str req (predict float_of_str req w).2 w) as (Hr & G1 & _).
  { rewrite G. apply same_artifacts_refl. }
  split; [by apply res_rel_eq|congruence].
Qed.

Lemma predict_pure_witness :
  let req := post (sample_body (PInt 12) (PInt 25) (PInt 5) (PInt 800)) in
  let later := (predict no_strings req ready_world).2 in
  (predict no_strings req ready_world).1 = (predict no_strings req later).1 ∧
  w_globals (predict no_strings req ready_world).2 = w_globals ready_world ∧
  w_globals (predict no_strings req later).2 = w_globals later.
Proof.
  cbn zeta.
  apply (predict_pure no_strings (post (sample_body (PInt 12) (PInt 25) (PInt 5) (PInt 800)))
           ready_world
           (predict no_strings (post (sample_body (PInt 12) (PInt 25) (PInt 5) (PInt 800)))
              ready_world).2).
  split; [reflexivity|]. split; constructor; reflexivity.
Defined.

(** ** Every way a call ends *)

Section Outcomes.
Variable float_of_str : string → option float.

Lemma predict_except_cases e w :
  predict_except e w =
    if is_ValueError e then (Ok format_error, w) else (Ok (internal_error e), log_error e w).
Proof. unfold predict_except. destruct (is_ValueError e); reflexivity. Qed.

(** The [try] block on an object that has the four keys: the conversions
    run in the order voltage, temperature, dust, irradiance and the first
    one that raises ends the block. *)
Lemma predict_try_dict m v1 v2 v3 v4 w :
  m !! "voltage" = Some v1 → m !! "temperature" = Some v2 →
  m !! "dust" = Some v3 → m !! "irradiance" = Some v4 →
  predict_try float_of_str (PDict m) w =
    match py_float float_of_str v1 with
    | Raise e => (Raise e, w)
    | Ok volt =>
      match py_float float_of_str v2 with
      | Raise e => (Raise e, w)
      | Ok temp =>
        match py_float float_of_str v3 with
        | Raise e => (Raise e, w)
        | Ok dust =>
          match py_float float_of_str v4 with
          | Raise e => (Raise e, w)
          | Ok light =>
              predict_try float_of_str
                (sample_body (PFloat volt) (PFloat temp) (PFloat dust) (PFloat light)) w
          end
        end
      end
    end.
Proof.
  intros H1 H2 H3 H4.
  unfold predict_try at 1, bind, float_field, lift. cbn [py_getitem].
  rewrite H1, H2, H3, H4. cbn [res_bind].
  destruct (py_float float_of_str v1) as [volt|e]; [|reflexivity].
  destruct (py_float float_of_str v2) as [temp|e]; [|reflexivity].
  destruct (py_float float_of_str v3) as [dust|e]; [|reflexivity].
  destruct (py_float float_of_str v4) as [light|e]; [|reflexivity].
  reflexivity.
Qed.

Lemma dict_present m v1 v2 v3 v4 :
  m !! "voltage" = Some v1 → m !! "temperature" = Some v2 →
  m !! "dust" = Some v3 → m !! "irradiance" = Some v4 →
  py_all_in (PDict m) required_keys = Ok true.
Proof.
  intros H1 H2 H3 H4. rewrite py_all_in_dict. unfold required_keys. cbn [forallb].
  by rewrite H1, H2, H3, H4.
Qed.

(** X5.  On an object that has the four keys, the conversions run in the
    order voltage, temperature, dust, irradiance, before any range check:
    the first one that raises decides the response, 400 with the format
    message for a [ValueError] and 500 with the text of the exception
    otherwise, whatever the values converted so far. *)
Theorem first_conversion_error_decides m v1 v2 v3 v4 e w :
  loaded w →
  m !! "voltage" = Some v1 → m !! "temperature" = Some v2 →
  m !! "dust" = Some v3 → m !! "irradiance" = Some v4 →
  first_error (py_float float_of_str <$> [v1; v2; v3; v4]) = Some e →
  predict float_of_str (post (PDict m)) w =
    if is_ValueError e then (Ok format_error, w)
    else (Ok (internal_error e), log_error e w).
Proof.
  intros Hl H1 H2 H3 H4 He. rewrite <- predict_except_cases.
  apply predict_raises; [done|by eapply dict_present|].
  rewrite (predict_try_dict _ _ _ _ _ _ H1 H2 H3 H4). cbn in He.
  repeat (case_match; simplify_eq; try done).
Qed.

(** The classification, step by step, when both artifacts are loaded. *)
Lemma classify_run volt temp dust light w md sc :
  g_model (w_globals w) = Some md → g_scaler (w_globals w) = Some sc →
  classify volt temp dust light w =
    let x := [[volt; dust; temp; light]] in
    match transform sc x with
    | Raise e => (Raise e, add_calls [CallTransform x] w)
    | Ok y =>
        ((let* prediction := model_predict md y in
          let* row := first_row prediction in
          let* idx := np_argmax row in
          let* probs := probabilities_from (g_LABEL_MAP (w_globals w)) 0 row ∅ in
          Ok (jsonify {[ "result" :=
                           PStr (default "Unknown Class" (g_LABEL_MAP (w_globals w) !! idx));
                         "probabilities" := PDict probs ]}, 200))%res,
         add_calls [CallTransform x; CallPredict y] w)
    end.
Proof.
  intros Hm Hs.
  unfold classify, scaler_transform, model_predict_call, bind, read_globals, record_call,
    lift, ret, add_calls.
  cbn [w_globals w_calls w_stderr]. rewrite Hs. cbn [w_globals w_calls w_stderr].
  destruct (transform sc _) as [y|e]; [|reflexivity].
  cbn [w_globals w_calls w_stderr]. rewrite Hm. cbn [w_globals w_calls w_stderr].
  rewrite <- app_assoc. cbn [app].
  destruct (model_predict md y) as [prediction|e]; [|reflexivity]. cbn [res_bind].
  destruct (first_row prediction) as [row|e]; [|reflexivity]. cbn [res_bind].
  destruct (np_argmax row) as [idx|e]; [|reflexivity]. cbn [res_bind].
  destruct (probabilities_from _ 0 row ∅) as [probs|e]; reflexivity.
Qed.

Lemma add_calls_nil w : add_calls [] w = w.
Proof. destruct w. unfold add_calls. cbn. by rewrite app_nil_r. Qed.

Lemma argmax_loop_lt ip mp max_ind i :
  (max_ind < i)%nat → (argmax_loop mp max_ind i ip < i + length ip)%nat.
Proof.
  revert mp max_ind i. induction ip as [|x rest IH]; intros mp max_ind i Hlt; cbn.
  - lia.
  - destruct (negb (le x mp)).
    + destruct (is_nan x); [lia|]. specialize (IH x i (S i) ltac:(lia)). lia.
    + specialize (IH mp max_ind (S i) ltac:(lia)). lia.
Qed.

(** [numpy.argmax] answers an index of the array. *)
Lemma np_argmax_lt row idx : np_argmax row = Ok idx → (idx < length row)%nat.
Proof.
  destruct row as [|x rest]; [done|]. cbn. intros [= <-].
  destruct (is_nan x); [lia|].
  pose proof (argmax_loop_lt rest x 0%nat 1%nat ltac:(lia)). lia.
Qed.

(** The comprehension succeeds only if every index of the array has a
    label. *)
Lemma probabilities_from_labelled labels i row acc probs :
  probabilities_from labels i row acc = Ok probs →
  ∀ k, (k < length row)%nat → is_Some (labels !! (i + k)%nat).
Proof.
  revert i acc. induction row as [|p rest IH]; intros i acc H k Hk; cbn in *; [lia|].
  destruct (labels !! i) as [label|] eqn:Hi; [|done].
  destruct k as [|k].
  - rewrite Nat.add_0_r. by rewrite Hi.
  - replace (i + S k)%nat with (S i + k)%nat by lia. eapply IH; [done|lia].
Qed.

(** The step of the [try] block that follows the four conversions. *)
Lemma predict_try_cases data w :
  (∃ e, predict_try float_of_str data w = (Raise e, w)) ∨
  (∃ volt temp dust light msg fault,
     validate_sensor_inputs volt temp dust light = Some msg ∧
     g_LABEL_MAP (w_globals w) !! 4%nat = Some fault ∧
     predict_try float_of_str data w = (Ok (fault_body fault msg, 400), w)) ∨
  (∃ volt temp dust light,
     validate_sensor_inputs volt temp dust light = None ∧
     predict_try float_of_str data w = classify volt temp dust light w).
Proof.
  unfold predict_try, bind, float_field, lift.
  destruct (res_bind (py_getitem data "voltage") _) as [volt|e]; [|left; by eexists].
  destruct (res_bind (py_getitem data "temperature") _) as [temp|e]; [|left; by eexists].
  destruct (res_bind (py_getitem data "dust") _) as [dust|e]; [|left; by eexists].
  destruct (res_bind (py_getitem data "irradiance") _) as [light|e]; [|left; by eexists].
  destruct (validate_sensor_inputs volt temp dust light) as [msg|] eqn:Hv.
  - rewrite (validate_message_truthy _ _ _ _ _ Hv).
    unfold label_at, read_globals, bind, lift, ret.
    destruct (g_LABEL_MAP (w_globals w) !! 4%nat) as [fault|] eqn:Hf.
    + right; left. by exists volt, temp, dust, light, msg, fault.
    + left. by eexists.
  - right; right. by exists volt, temp, dust, light.
Qed.

Lemma outcome_except e new w :
  called w new →
  outcome w (predict_except e (add_calls new w)).1 (predict_except e (add_calls new w)).2.
Proof.
  intros Hc. rewrite predict_except_cases. destruct (is_ValueError e) eqn:He; cbn [fst snd].
  - by apply out_format_error with e.
  - by apply out_internal_error.
Qed.

(** Every call of the handler ends in one of the ways of [outcome]. *)
Lemma predict_outcome req w :
  outcome w (predict float_of_str req w).1 (predict float_of_str req w).2.
Proof.
  destruct (is_none (g_model (w_globals w)) || is_none (g_scaler (w_globals w))) eqn:Hg.
  - unfold predict, bind, read_globals, ret. rewrite Hg. by apply out_unavailable.
  - apply orb_false_iff in Hg as [Hm Hs].
    destruct (g_model (w_globals w)) as [md|] eqn:Em; [|done].
    destruct (g_scaler (w_globals w)) as [sc|] eqn:Es; [|done].
    assert (Hl : loaded w) by (split; [rewrite Em|rewrite Es]; by eexists).
    rewrite (predict_loaded _ _ _ Hl).
    destruct (method req); [|apply out_preflight].
    destruct (get_json req) as [data|e]; [|apply out_uncaught].
    destruct (py_all_in data required_keys) as [[]|e];
      [|apply out_missing_keys|apply out_uncaught].
    unfold try_except.
    destruct (predict_try_cases data w)
      as [[e ->]|[(volt & temp & dust & light & msg & fault & Hv & Hf & ->)
                 |(volt & temp & dust & light & Hv & ->)]].
    + rewrite <- (add_calls_nil w) at 2 3. apply outcome_except. constructor.
    + by eapply out_rejected.
    + rewrite (classify_run _ _ _ _ _ _ _ Em Es). cbn zeta.
      destruct (transform sc _) as [y|e] eqn:Et.
      2:{ apply outcome_except. by constructor. }
      assert (Hc : called w [CallTransform [[volt; dust; temp; light]]; CallPredict y])
        by (by eapply called_both).
      destruct (model_predict md y) as [prediction|e] eqn:Ep; cbn [res_bind];
        [|by apply outcome_except].
      destruct (first_row prediction) as [row|e] eqn:Er; cbn [res_bind];
        [|by apply outcome_except].
      destruct (np_argmax row) as [idx|e] eqn:Ea; cbn [res_bind];
        [|by apply outcome_except].
      destruct (probabilities_from _ 0 row ∅) as [probs|e] eqn:Epr; cbn [res_bind];
        [|by apply outcome_except].
      destruct (probabilities_from_labelled _ _ _ _ _ Epr idx (np_argmax_lt _ _ Ea))
        as [label Hlab].
      cbn [Nat.add] in Hlab. rewrite Hlab. cbn [default fst snd].
      by eapply out_classified.
Qed.
End Outcomes.

(** X1.  A 200 response always carries a label of the label map as its
    result: the default ["Unknown Class"] of the lookup is never
    returned, because an index without a label makes the comprehension
    of the probabilities raise. *)
Theorem ok_response_is_labelled float_of_str req w body :
  (predict float_of_str req w).1 = Ok (body, 200) →
  ∃ idx label probs,
    g_LABEL_MAP (w_globals w) !! idx = Some label ∧
    body = jsonify {[ "result" := PStr label; "probabilities" := PDict probs ]}.
Proof.
  intros H. pose proof (predict_outcome float_of_str req w) as Ho. rewrite H in Ho.
  inversion Ho; subst; try discriminate. by eexists _, _, _.
Qed.

(** X8.  The handler prints on standard error exactly when it answers
    500 from the catch-all clause, and then one line that carries the text
    of the exception; every other call leaves standard error as it was. *)
Theorem stderr_only_on_500 float_of_str req w :
  (∃ e, (predict float_of_str req w).1 = Ok (internal_error e) ∧
        w_stderr (predict float_of_str req w).2 =
          w_stderr w ++ ["Prediction Error (Internal Server): " +:+ exc_str e]) ∨
  ((∀ body, (predict float_of_str req w).1 ≠ Ok (body, 500)) ∧
   w_stderr (predict float_of_str req w).2 = w_stderr w).
Proof.
  destruct (predict_outcome float_of_str req w);
    try (right; split; [intros body' [=]|reflexivity]).
  left. by exists e.
Qed.

(** X9.  Every response has status 200, 204, 400, 500 or 503, and every
    response with status 400 or more is a JSON object with a string under
    the key [error]. *)
Theorem response_statuses float_of_str req w body status :
  (predict float_of_str req w).1 = Ok (body, status) →
  status ∈ [200; 204; 400; 500; 503] ∧
  (400 <= status → ∃ d msg, body = jsonify d ∧ d !! "error" = Some (PStr msg)).
Proof.
  intros H. pose proof (predict_outcome float_of_str req w) as Ho. rewrite H in Ho.
  inversion Ho; subst; (split; [set_solver|]); intros Hs; try lia;
    eexists _, _; (split; [reflexivity|]); reflexivity.
Qed.


Lemma py_all_in_raise data e :
  py_all_in data required_keys = Raise e ↔
  is_container data = false ∧
  e = PyExc TypeError ("argument of type '" +:+ type_name data +:+ "' is not iterable").
Proof.
  unfold required_keys. cbn [py_all_in].
  destruct data; cbn [py_contains res_bind is_container];
    try (split; [intros [= <-]; done|intros [_ ->]; done]);
    (split; [|intros [[=] _]]); repeat (case_match; try done).
Qed.

Lemma try_block_never_raises float_of_str data w e :
  (try_except (predict_try float_of_str data) predict_except w).1 ≠ Raise e.
Proof.
  unfold try_except. destruct (predict_try float_of_str data w) as [[r|e'] w1]; [done|].
  rewrite predict_except_cases. by destruct (is_ValueError e').
Qed.

(** X6.  The handler lets an exception escape exactly when both
    artifacts are loaded, the method is POST, and either [get_json] raised
    or the body is not an object, an array or a string; the exception is
    then the one of [get_json] or a [TypeError], and the world is
    unchanged.  Nothing raised inside the [try] block escapes. *)
Theorem uncaught_exceptions float_of_str req w :
  ((∃ e, (predict float_of_str req w).1 = Raise e) ↔
   loaded w ∧ method req = POST ∧
   ((∃ e, get_json req = Raise e) ∨
    ∃ data, get_json req = Ok data ∧ is_container data = false)) ∧
  (∀ e, (predict float_of_str req w).1 = Raise e →
     (get_json req = Raise e ∨ exc_cls e = TypeError) ∧
     (predict float_of_str req w).2 = w).
Proof.
  assert (Hfwd : ∀ e, (predict float_of_str req w).1 = Raise e →
    loaded w ∧ method req = POST ∧ (predict float_of_str req w).2 = w ∧
    (get_json req = Raise e ∨
     ∃ data, get_json req = Ok data ∧ is_container data = false ∧ exc_cls e = TypeError)).
  { intros e H.
    destruct (g_model (w_globals w)) as [md|] eqn:Em;
      [|by unfold predict, bind, read_globals, ret in H; rewrite Em in H].
    destruct (g_scaler (w_globals w)) as [sc|] eqn:Es;
      [|by unfold predict, bind, read_globals, ret in H; rewrite Em, Es in H].
    assert (Hl : loaded w) by (split; [rewrite Em|rewrite Es]; by eexists).
    split; [done|]. rewrite (predict_loaded _ _ _ Hl) in H |- *.
    destruct (method req); [|done]. split; [done|].
    destruct (get_json req) as [data|e1]; [|split; [done|left; cbn in H; congruence]].
    destruct (py_all_in data required_keys) as [[]|e1] eqn:Ek.
    - by apply try_block_never_raises in H.
    - done.
    - split; [done|]. right. exists data. split; [done|].
      cbn in H. injection H as ->. by apply py_all_in_raise in Ek as [? ->]. }
  split; [split|].
  - intros [e (Hl & Hm & _ & [H|(data & H & Hc & _)])%Hfwd];
      (split; [done|split; [done|]]); [left|right]; by eexists.
  - intros (Hl & Hm & H). rewrite (predict_loaded _ _ _ Hl), Hm.
    destruct H as [[e ->]|(data & -> & Hc)]; [by eexists|].
    eexists. by rewrite (proj2 (py_all_in_raise data _) (conj Hc eq_refl)).
  - intros e (_ & _ & Hw & [H|(data & _ & _ & H)])%Hfwd; (split; [|done]); [by left|by right].
Qed.

(** [k in data] on an array or a string decides [holds_name]. *)
Lemma py_contains_sequence data k :
  (∃ l, data = PList l) ∨ (∃ s, data = PStr s) → k ≠ "" →
  ∃ b, py_contains data k = Ok b ∧ (b = true ↔ holds_name data k).
Proof.
  intros [[l ->]|[s ->]] Hk; eexists; (split; [reflexivity|]); cbn [holds_name].
  - rewrite existsb_exists. split.
    + intros (v & Hin & Hv). destruct v; try done.
      apply String.eqb_eq in Hv as ->. by apply list_elem_of_In.
    + intros Hin. exists (PStr k). split; [by apply list_elem_of_In|apply String.eqb_refl].
  - rewrite bool_decide_eq_true. split.
    + intros [m Hm]. exists m. by apply String.index_correct1 in Hm.
    + intros [m Hm]. destruct (String.index 0 k s) as [n|] eqn:Hi; [by eexists|].
      exfalso. eapply (String.index_correct3 0 m); [done|done|lia|done].
Qed.

Lemma py_all_in_sequence data :
  (∃ l, data = PList l) ∨ (∃ s, data = PStr s) →
  ∃ b, py_all_in data required_keys = Ok b ∧
       (b = true ↔ Forall (holds_name data) required_keys).
Proof.
  intros Hd. unfold required_keys.
  destruct (py_contains_sequence data "voltage" Hd ltac:(done)) as (b1 & E1 & H1).
  destruct (py_contains_sequence data "temperature" Hd ltac:(done)) as (b2 & E2 & H2).
  destruct (py_contains_sequence data "dust" Hd ltac:(done)) as (b3 & E3 & H3).
  destruct (py_contains_sequence data "irradiance" Hd ltac:(done)) as (b4 & E4 & H4).
  exists (b1 && b2 && b3 && b4). split.
  - cbn [py_all_in]. rewrite E1. cbn [res_bind]. destruct b1; [|done].
    rewrite E2. cbn [res_bind]. destruct b2; [|done].
    rewrite E3. cbn [res_bind]. destruct b3; [|done].
    rewrite E4. cbn [res_bind]. by destruct b4.
  - rewrite !Forall_cons, Forall_nil, !andb_true_iff. tauto.
Qed.

(** X7.  A body that is an array or a string is never classified.  When
    [k in data] holds for the four key names (each is an element of the
    array, or a substring of the string), the answer is 500 with the text
    of the [TypeError] that [data["voltage"]] raises, and one line on
    standard error; otherwise it is the missing-keys response, and the
    world is unchanged. *)
Theorem sequence_body_not_classified float_of_str data w :
  loaded w →
  (∃ l, data = PList l) ∨ (∃ s, data = PStr s) →
  (Forall (holds_name data) required_keys →
     ∃ e, py_getitem data "voltage" = Raise e ∧ exc_cls e = TypeError ∧
          predict float_of_str (post data) w = (Ok (internal_error e), log_error e w)) ∧
  (¬ Forall (holds_name data) required_keys →
     predict float_of_str (post data) w = (Ok missing_keys_error, w)).
Proof.
  intros Hl Hd. destruct (py_all_in_sequence data Hd) as (b & Hb & Hiff).
  rewrite (predict_loaded _ _ _ Hl). cbn [post method get_json]. rewrite Hb. split.
  - intros Hall. apply Hiff in Hall as ->.
    unfold try_except, predict_try, bind, float_field, lift.
    destruct Hd as [[l ->]|[s ->]]; cbn [py_getitem res_bind]; eexists;
      (split; [reflexivity|]); split; reflexivity.
  - intros Hnot. destruct b; [|done]. by destruct Hnot; apply Hiff.
Qed.

Lemma sequence_body_not_classified_witness :
  (Forall (holds_name (PList [PStr "irradiance"; PStr "dust"; PInt 12;
                              PStr "temperature"; PStr "voltage"])) required_keys →
     ∃ e, py_getitem (PList [PStr "irradiance"; PStr "dust"; PInt 12;
                             PStr "temperature"; PStr "voltage"]) "voltage" = Raise e ∧
          exc_cls e = TypeError ∧
          predict no_strings
            (post (PList [PStr "irradiance"; PStr "dust"; PInt 12;
                          PStr "temperature"; PStr "voltage"])) ready_world =
            (Ok (internal_error e), log_error e ready_world)) ∧
  (¬ Forall (holds_name (PList [PStr "irradiance"; PStr "dust"; PInt 12;
                                PStr "temperature"; PStr "voltage"])) required_keys →
     predict no_strings
       (post (PList [PStr "irradiance"; PStr "dust"; PInt 12;
                     PStr "temperature"; PStr "voltage"])) ready_world =
       (Ok missing_keys_error, ready_world)).
Proof.
  apply (sequence_body_not_classified no_strings
           (PList [PStr "irradiance"; PStr "dust"; PInt 12;
                   PStr "temperature"; PStr "voltage"]) ready_world).
  - split; eexists; reflexivity.
  - left. eexists. reflexivity.
Defined.

(** The two branches on sample bodies: an array that holds the four names,
    a string that holds them as substrings, and an array that lacks one. *)
Example sequence_bodies :
  (predict no_strings
     (post (PList [PStr "irradiance"; PStr "dust"; PInt 12; PStr "temperature"; PStr "voltage"]))
     ready_world).1 =
    Ok (internal_error (PyExc TypeError "list indices must be integers or slices, not str")) ∧
  (predict no_strings (post (PStr "voltage temperature dust irradiance")) ready_world).1 =
    Ok (internal_error (PyExc TypeError "string indices must be integers, not 'str'")) ∧
  (predict no_strings (post (PList [PStr "voltage"; PInt 12])) ready_world).1 =
    Ok missing_keys_error.
Proof. repeat split; reflexivity. Qed.

Lemma predict_classifies float_of_str data volt temp dust light w :
  loaded w →
  parses float_of_str data volt temp dust light →
  validate_sensor_inputs volt temp dust light = None →
  predict float_of_str (post data) w =
    try_except (classify volt temp dust light) predict_except w.
Proof.
  intros Hl Hp Hv. rewrite (predict_loaded _ _ _ Hl). cbn [post method get_json].
  rewrite (parses_present _ _ _ _ _ _ Hp). unfold try_except.
  by rewrite (predict_try_in_range _ _ _ _ _ _ _ Hp Hv).
Qed.

(** X4.  On a request that passed the validation, a [ValueError] raised
    by the scaler or by the model, or the one [numpy.argmax] raises on an
    empty row of probabilities, is answered with status 400 and the
    message that all inputs must be numerical. *)
Theorem artifact_value_error_is_format_error float_of_str data volt temp dust light w md sc :
  g_model (w_globals w) = Some md → g_scaler (w_globals w) = Some sc →
  parses float_of_str data volt temp dust light →
  validate_sensor_inputs volt temp dust light = None →
  (∃ e, is_ValueError e = true ∧ transform sc [[volt; dust; temp; light]] = Raise e) ∨
  (∃ y, transform sc [[volt; dust; temp; light]] = Ok y ∧
        ((∃ e, is_ValueError e = true ∧ model_predict md y = Raise e) ∨
         (∃ rest, model_predict md y = Ok ([] :: rest)))) →
  (predict float_of_str (post data) w).1 = Ok format_error.
Proof.
  intros Hm Hs Hp Hv H.
  assert (Hl : loaded w) by (split; eexists; eassumption).
  rewrite (predict_classifies _ _ _ _ _ _ _ Hl Hp Hv). unfold try_except.
  rewrite (classify_run _ _ _ _ _ _ _ Hm Hs). cbn zeta.
  destruct H as [(e & He & ->)|(y & -> & [(e & He & ->)|(rest & ->)])];
    cbn [res_bind first_row np_argmax];
    rewrite predict_except_cases; [by rewrite He..|reflexivity].
Qed.

Lemma artifact_value_error_is_format_error_witness :
  (predict no_strings (post (sample_body (PInt 12) (PInt 25) (PInt 5) (PInt 800)))
     {| w_globals := {| g_model := Some constant_model;
                        g_scaler := Some {| transform := λ _,
                          Raise (PyExc ValueError "X has 4 features, but MinMaxScaler is expecting 3 features as input.") |};
                        g_LABEL_MAP := LABEL_MAP |};
        w_stderr := []; w_calls := [] |}).1 = Ok format_error.
Proof.
  eapply (artifact_value_error_is_format_error no_strings _
            (of_Z 12) (of_Z 25) (of_Z 5) (of_Z 800)).
  - reflexivity.
  - reflexivity.
  - repeat split; eexists _, _; (split; [reflexivity|]); split; reflexivity.
  - reflexivity.
  - left.
    exists (PyExc ValueError "X has 4 features, but MinMaxScaler is expecting 3 features as input.").
    split; reflexivity.
Defined.

Lemma ok_response_is_labelled_witness :
  ∃ idx label probs,
    g_LABEL_MAP (w_globals ready_world) !! idx = Some label ∧
    jsonify {[ "result" := PStr "ปกติ (Normal)";
               "probabilities" := PDict (list_to_map [
                 ("ปกติ (Normal)", PFloat (of_Z 1));
                 ("ฝุ่น (Soiling)", PFloat (of_Z 0));
                 ("อุณหภูมิสูง (High Temp)", PFloat (of_Z 0));
                 ("เงาบัง (Shading)", PFloat (of_Z 0));
                 ("Sensor Error / ค่าผิดปกติเกินขอบเขต", PFloat (of_Z 0));
                 ("ร้อน+เงา (Temp + Shade)", PFloat (of_Z 0));
                 ("ฝุ่น+ร้อน (Dust + Temp)", PFloat (of_Z 0));
                 ("ฝุ่น+เงา (Dust + Shade)", PFloat (of_Z 0));
                 ("ฝุ่น+ร้อน+เงา (Worst Case)", PFloat (of_Z 0));
                 ("อุณหภูมิต่ำ (Low Temp)", PFloat (of_Z 0)) ]) ]} =
      jsonify {[ "result" := PStr label; "probabilities" := PDict probs ]}.
Proof.
  apply (ok_response_is_labelled no_strings
           (post (sample_body (PInt 12) (PInt 25) (PInt 5) (PInt 800))) ready_world).
  vm_compute. reflexivity.
Defined.

Lemma response_statuses_witness :
  400 ∈ [200; 204; 400; 500; 503] ∧
  (400 <= 400 → ∃ d msg, jsonify {[ "error" := PStr "Invalid data format. All inputs must be numerical." ]} = jsonify d ∧
                         d !! "error" = Some (PStr msg)).
Proof.
  apply (response_statuses no_strings
           (post (sample_body (PStr "abc") (PInt 25) (PInt 5) (PInt 800))) ready_world).
  vm_compute. reflexivity.
Defined.

(** ** The label map *)

Lemma LABEL_MAP_lookup i : LABEL_MAP !! i = class_labels !! i.
Proof.
  do 10 (destruct i as [|i]; [vm_compute; reflexivity|]).
  unfold LABEL_MAP. cbn [list_to_map foldr uncurry fst snd].
  rewrite !lookup_insert_ne by lia. by rewrite lookup_empty.
Qed.

Lemma class_labels_NoDup : NoDup class_labels.
Proof. apply (bool_decide_unpack (NoDup class_labels)). vm_compute. exact I. Qed.

Lemma LABEL_MAP_inj i j label :
  LABEL_MAP !! i = Some label → LABEL_MAP !! j = Some label → i = j.
Proof. rewrite !LABEL_MAP_lookup. apply NoDup_lookup, class_labels_NoDup. Qed.

Lemma LABEL_MAP_defined i : is_Some (LABEL_MAP !! i) ↔ (i < 10)%nat.
Proof. rewrite LABEL_MAP_lookup, lookup_lt_is_Some. reflexivity. Qed.

(** The comprehension over a row whose indices all have a label, the
    labels being pairwise distinct: each label of an index of the row is
    mapped to the entry at that index, and the other keys are those of the
    initial dict. *)
Lemma probabilities_from_spec (labels : gmap nat string) i row acc :
  (∀ a b label, labels !! a = Some label → labels !! b = Some label → a = b) →
  (∀ k, (k < length row)%nat → is_Some (labels !! (i + k)%nat)) →
  ∃ probs,
    probabilities_from labels i row acc = Ok probs ∧
    (∀ k p, row !! k = Some p →
       ∃ label, labels !! (i + k)%nat = Some label ∧ probs !! label = Some (PFloat p)) ∧
    (∀ label, (∀ k, (k < length row)%nat → labels !! (i + k)%nat ≠ Some label) →
       probs !! label = acc !! label) ∧
    (∀ label, is_Some (probs !! label) →
       is_Some (acc !! label) ∨
       ∃ k, (k < length row)%nat ∧ labels !! (i + k)%nat = Some label).
Proof.
  intros Hinj. revert i acc. induction row as [|p rest IH]; intros i acc Hdef.
  - exists acc. split; [done|]. split; [by intros k p' Hk|]. split; [done|]. by left.
  - destruct (Hdef 0%nat ltac:(cbn; lia)) as [label0 H0]. rewrite Nat.add_0_r in H0.
    destruct (IH (S i) (<[label0 := PFloat p]> acc)) as (probs & Hp & Hrow & Hother & Hdom).
    { intros k Hk. replace (S i + k)%nat with (i + S k)%nat by lia.
      apply Hdef. cbn. lia. }
    exists probs. split; [cbn; by rewrite H0|]. split; [|split].
    + intros [|k] p' Hk; cbn in Hk.
      * injection Hk as <-. exists label0. rewrite Nat.add_0_r. split; [done|].
        rewrite Hother; [apply lookup_insert_eq|].
        intros k Hk Hlab. specialize (Hinj _ _ _ Hlab H0). lia.
      * replace (i + S k)%nat with (S i + k)%nat by lia. by apply Hrow.
    + intros label Hnot. rewrite Hother.
      * apply lookup_insert_ne. intros <-. apply (Hnot 0%nat); [cbn; lia|].
        by rewrite Nat.add_0_r.
      * intros k Hk. replace (S i + k)%nat with (i + S k)%nat by lia.
        apply Hnot. cbn. lia.
    + intros label [Hacc|(k & Hk & Hlk)]%Hdom.
      * destruct (decide (label0 = label)) as [<-|Hne].
        -- right. exists 0%nat. split; [cbn; lia|]. by rewrite Nat.add_0_r.
        -- left. by rewrite lookup_insert_ne in Hacc.
      * right. exists (S k). split; [cbn; lia|].
        by replace (i + S k)%nat with (S i + k)%nat by lia.
Qed.

(** X2.  On a request that passed the validation, when the scaler returns
    and the model returns a first row of one to ten probabilities, the
    response is 200, its result is the label at the index [numpy.argmax]
    picks, and its probabilities map the label of each index of the row
    to the entry at that index, with no other key. *)
Theorem predict_success float_of_str data volt temp dust light w md sc y row rest :
  g_model (w_globals w) = Some md → g_scaler (w_globals w) = Some sc →
  g_LABEL_MAP (w_globals w) = LABEL_MAP →
  parses float_of_str data volt temp dust light →
  validate_sensor_inputs volt temp dust light = None →
  transform sc [[volt; dust; temp; light]] = Ok y →
  model_predict md y = Ok (row :: rest) →
  (0 < length row <= 10)%nat →
  ∃ idx label probs,
    np_argmax row = Ok idx ∧ LABEL_MAP !! idx = Some label ∧
    predict float_of_str (post data) w =
      (Ok (classified label probs),
       add_calls [CallTransform [[volt; dust; temp; light]]; CallPredict y] w) ∧
    (∀ i p, row !! i = Some p →
       ∃ li, LABEL_MAP !! i = Some li ∧ probs !! li = Some (PFloat p)) ∧
    (∀ li, is_Some (probs !! li) → ∃ i, (i < length row)%nat ∧ LABEL_MAP !! i = Some li).
Proof.
  intros Hm Hs Hlab Hp Hv Ht Hmd Hlen.
  assert (Hl : loaded w) by (split; eexists; eassumption).
  destruct (np_argmax row) as [idx|e] eqn:Ha; [|by destruct row; [cbn in Hlen; lia|]].
  destruct (probabilities_from_spec LABEL_MAP 0 row ∅ LABEL_MAP_inj)
    as (probs & Hpr & Hrow & _ & Hdom).
  { intros k Hk. apply LABEL_MAP_defined. cbn. lia. }
  pose proof (np_argmax_lt _ _ Ha) as Hidx.
  destruct (proj2 (LABEL_MAP_defined idx) ltac:(lia)) as [label Hlabel].
  exists idx, label, probs. split; [done|]. split; [done|]. split; [|split].
  - rewrite (predict_classifies _ _ _ _ _ _ _ Hl Hp Hv). unfold try_except.
    rewrite (classify_run _ _ _ _ _ _ _ Hm Hs). cbn zeta.
    rewrite Ht, Hmd. cbn [res_bind first_row]. rewrite Ha. cbn [res_bind].
    rewrite Hlab, Hpr, Hlabel. reflexivity.
  - intros i p Hi. by apply Hrow in Hi.
  - intros li [Hli|Hli]%Hdom; [by rewrite lookup_empty in Hli; destruct Hli|done].
Qed.

Lemma predict_success_witness :
  let row := [of_Z 1; of_Z 0; of_Z 0; of_Z 0; of_Z 0; of_Z 0; of_Z 0; of_Z 0; of_Z 0; of_Z 0] in
  let x := [[of_Z 12; of_Z 5; of_Z 25; of_Z 800]] in
  ∃ idx label probs,
    np_argmax row = Ok idx ∧ LABEL_MAP !! idx = Some label ∧
    predict no_strings
      (post (sample_body (PFloat (of_Z 12)) (PFloat (of_Z 25)) (PFloat (of_Z 5)) (PFloat (of_Z 800))))
      ready_world =
      (Ok (classified label probs), add_calls [CallTransform x; CallPredict x] ready_world) ∧
    (∀ i p, row !! i = Some p →
       ∃ li, LABEL_MAP !! i = Some li ∧ probs !! li = Some (PFloat p)) ∧
    (∀ li, is_Some (probs !! li) → ∃ i, (i < length row)%nat ∧ LABEL_MAP !! i = Some li).
Proof.
  cbn zeta.
  apply (predict_success no_strings _ (of_Z 12) (of_Z 25) (of_Z 5) (of_Z 800) ready_world
           constant_model identity_scaler [[of_Z 12; of_Z 5; of_Z 25; of_Z 800]] _ []).
  - reflexivity.
  - reflexivity.
  - reflexivity.
  - apply sample_parses.
  - reflexivity.
  - reflexivity.
  - reflexivity.
  - cbn. lia.
Defined.

(** The comprehension raises [KeyError] at the first index without a
    label. *)
Lemma probabilities_from_missing (labels : gmap nat string) n i row acc :
  (∀ k, (k < n)%nat → is_Some (labels !! (i + k)%nat)) →
  labels !! (i + n)%nat = None → (n < length row)%nat →
  probabilities_from labels i row acc = Raise (PyExc KeyError (pretty (i + n)%nat)).
Proof.
  revert i row acc. induction n as [|n IH]; intros i row acc Hdef Hnone Hlen;
    destruct row as [|p rest]; cbn in Hlen; try lia; cbn [probabilities_from].
  - rewrite Nat.add_0_r in Hnone |- *. by rewrite Hnone.
  - destruct (Hdef 0%nat ltac:(lia)) as [label0 H0]. rewrite Nat.add_0_r in H0.
    rewrite H0. replace (i + S n)%nat with (S i + n)%nat in * by lia.
    apply IH; [|done|lia].
    intros k Hk. replace (S i + k)%nat with (i + S k)%nat by lia. apply Hdef. lia.
Qed.

(** X3.  When the model returns more than ten probabilities, the lookup
    of the label of index 10 raises [KeyError] and the response is 500
    with the message [Internal server error during prediction: 10]. *)
Theorem too_many_classes float_of_str data volt temp dust light w md sc y row rest :
  g_model (w_globals w) = Some md → g_scaler (w_globals w) = Some sc →
  g_LABEL_MAP (w_globals w) = LABEL_MAP →
  parses float_of_str data volt temp dust light →
  validate_sensor_inputs volt temp dust light = None →
  transform sc [[volt; dust; temp; light]] = Ok y →
  model_predict md y = Ok (row :: rest) →
  (10 < length row)%nat →
  predict float_of_str (post data) w =
    (Ok (jsonify {[ "error" := PStr "Internal server error during prediction: 10" ]}, 500),
     log_error (PyExc KeyError "10")
       (add_calls [CallTransform [[volt; dust; temp; light]]; CallPredict y] w)).
Proof.
  intros Hm Hs Hlab Hp Hv Ht Hmd Hlen.
  assert (Hl : loaded w) by (split; eexists; eassumption).
  destruct (np_argmax row) as [idx|e] eqn:Ha; [|by destruct row; [cbn in Hlen; lia|]].
  rewrite (predict_classifies _ _ _ _ _ _ _ Hl Hp Hv). unfold try_except.
  rewrite (classify_run _ _ _ _ _ _ _ Hm Hs). cbn zeta.
  rewrite Ht, Hmd. cbn [res_bind first_row]. rewrite Ha. cbn [res_bind]. rewrite Hlab.
  rewrite (probabilities_from_missing LABEL_MAP 10 0 row ∅); [reflexivity| |reflexivity|done].
  intros k Hk. apply LABEL_MAP_defined. lia.
Qed.

Lemma too_many_classes_witness :
  let eleven : Model := {| model_predict := λ _, Ok [replicate 11 (of_Z 0)] |} in
  let w := startup "/srv/backendsolar" (λ _, Ok eleven) (λ _, Ok identity_scaler) in
  let x := [[of_Z 12; of_Z 5; of_Z 25; of_Z 800]] in
  predict no_strings
    (post (sample_body (PFloat (of_Z 12)) (PFloat (of_Z 25)) (PFloat (of_Z 5)) (PFloat (of_Z 800))))
    w =
    (Ok (jsonify {[ "error" := PStr "Internal server error during prediction: 10" ]}, 500),
     log_error (PyExc KeyError "10") (add_calls [CallTransform x; CallPredict x] w)).
Proof.
  cbn zeta.
  eapply (too_many_classes no_strings _ (of_Z 12) (of_Z 25) (of_Z 5) (of_Z 800)).
  - reflexivity.
  - reflexivity.
  - reflexivity.
  - apply sample_parses.
  - reflexivity.
  - reflexivity.
  - reflexivity.
  - cbn. lia.
Defined.

Lemma chained_le_nonfinite fld x :
  is_finite x = false → chained_le (field_min fld) x (field_max fld) = false.
Proof. destruct x as [s|s| |s m e]; try discriminate; intros _; destruct fld; try destruct s; reflexivity. Qed.

Lemma validate_nonfinite volt temp dust light :
  is_finite volt && is_finite temp && is_finite dust && is_finite light = false →
  ∃ msg, validate_sensor_inputs volt temp dust light = Some msg.
Proof.
  intros H. unfold validate_sensor_inputs.
  change VOLT_MIN with (field_min Voltage). change VOLT_MAX with (field_max Voltage).
  change TEMP_MIN with (field_min Temperature). change TEMP_MAX with (field_max Temperature).
  change DUST_MIN with (field_min Dust). change DUST_MAX with (field_max Dust).
  change LIGHT_MIN with (field_min Irradiance). change LIGHT_MAX with (field_max Irradiance).
  destruct (chained_le (field_min Voltage) volt _) eqn:H1; [|by eexists].
  destruct (chained_le (field_min Temperature) temp _) eqn:H2; [|by eexists].
  destruct (chained_le (field_min Dust) dust _) eqn:H3; [|by eexists].
  destruct (chained_le (field_min Irradiance) light _) eqn:H4; [|by eexists].
  destruct (is_finite volt) eqn:F1; [|by rewrite chained_le_nonfinite in H1].
  destruct (is_finite temp) eqn:F2; [|by rewrite chained_le_nonfinite in H2].
  destruct (is_finite dust) eqn:F3; [|by rewrite chained_le_nonfinite in H3].
  destruct (is_finite light) eqn:F4; [|by rewrite chained_le_nonfinite in H4].
  done.
Qed.

(** X11.  A request with an infinite or NaN reading in any field is
    rejected with status 400 and the label of class 4, whatever the other
    three readings are, and leaves the world unchanged. *)
Theorem nonfinite_reading_rejected float_of_str data volt temp dust light w :
  loaded w → g_LABEL_MAP (w_globals w) = LABEL_MAP →
  parses float_of_str data volt temp dust light →
  is_finite volt && is_finite temp && is_finite dust && is_finite light = false →
  ∃ msg,
    predict float_of_str (post data) w =
      (Ok (fault_body "Sensor Error / ค่าผิดปกติเกินขอบเขต" msg, 400), w).
Proof.
  intros Hl Hlab Hp Hf. destruct (validate_nonfinite _ _ _ _ Hf) as [msg Hv].
  exists msg. by apply predict_rejects with volt temp dust light.
Qed.

Lemma nonfinite_reading_rejected_witness :
  ∃ msg,
    predict no_strings
      (post (sample_body (PFloat (of_Z 12)) (PFloat (of_Z 25)) (PFloat (of_Z 5))
                         (PFloat (S754_infinity false))))
      ready_world =
      (Ok (fault_body "Sensor Error / ค่าผิดปกติเกินขอบเขต" msg, 400), ready_world).
Proof.
  apply (nonfinite_reading_rejected no_strings _ (of_Z 12) (of_Z 25) (of_Z 5)
           (S754_infinity false) ready_world).
  - split; eexists; reflexivity.
  - reflexivity.
  - apply sample_parses.
  - reflexivity.
Defined.

(** ** Sequences of requests *)

Lemma predict_keeps_globals float_of_str req w :
  w_globals (predict float_of_str req w).2 = w_globals w.
Proof.
  by destruct (pure_predict float_of_str req w w (same_artifacts_refl _)) as (_ & G & _).
Qed.

Lemma predict_same_globals float_of_str req w1 w2 :
  w_globals w1 = w_globals w2 →
  (predict float_of_str req w1).1 = (predict float_of_str req w2).1.
Proof.
  intros H. apply res_rel_eq.
  apply (pure_predict float_of_str req w1 w2). rewrite H. apply same_artifacts_refl.
Qed.

Lemma serve_cons float_of_str req rest w :
  serve float_of_str (req :: rest) w =
    ((predict float_of_str req w).1 :: (serve float_of_str rest (predict float_of_str req w).2).1,
     (serve float_of_str rest (predict float_of_str req w).2).2).
Proof.
  cbn [serve]. destruct (predict float_of_str req w) as [r w1]. cbn [fst snd].
  destruct (serve float_of_str rest w1) as [rs w2]. reflexivity.
Qed.

Lemma serve_keeps_globals float_of_str reqs w :
  w_globals (serve float_of_str reqs w).2 = w_globals w.
Proof.
  revert w. induction reqs as [|req rest IH]; intros w; [done|].
  rewrite serve_cons. cbn [snd]. by rewrite IH, predict_keeps_globals.
Qed.

(** X12.  In a sequence of requests each one gets the response it would
    get alone from the initial world, and the globals at the end are those
    of the start. *)
Theorem requests_do_not_interfere float_of_str reqs w :
  (serve float_of_str reqs w).1 = (λ req, (predict float_of_str req w).1) <$> reqs ∧
  w_globals (serve float_of_str reqs w).2 = w_globals w.
Proof.
  split; [|apply serve_keeps_globals].
  revert w. induction reqs as [|req rest IH]; intros w; [done|].
  rewrite serve_cons. cbn [fst fmap list_fmap]. f_equal. rewrite IH.
  apply list_fmap_ext. intros _ req' _.
  apply predict_same_globals, predict_keeps_globals.
Qed.




(** X14.  When both artifacts are loaded, no request of any sequence is
    answered with status 503. *)
Theorem loaded_never_unavailable float_of_str reqs w :
  loaded w →
  Forall (λ r, ∀ body, r ≠ Ok (body, 503)) (serve float_of_str reqs w).1.
Proof.
  intros Hl.
  assert (Hg : ∀ w', w_globals w' = w_globals w →
    is_none (g_model (w_globals w')) || is_none (g_scaler (w_globals w')) = false).
  { intros w' ->. destruct Hl as [[m ->] [s ->]]. done. }
  assert (H1 : ∀ req w', w_globals w' = w_globals w →
    ∀ body, (predict float_of_str req w').1 ≠ Ok (body, 503)).
  { intros req w' Hw body Hr. pose proof (predict_outcome float_of_str req w') as Ho.
    rewrite Hr in Ho. inversion Ho as [Hgate| | | | | | |].
    match type of Hgate with
    | is_none (g_model (w_globals ?x)) || _ = true => rewrite (Hg x) in Hgate; [done|]
    end.
    first [exact Hw | by rewrite predict_keeps_globals]. }
  assert (Hgen : ∀ w', w_globals w' = w_globals w →
    Forall (λ r, ∀ body, r ≠ Ok (body, 503)) (serve float_of_str reqs w').1);
    [|by apply Hgen].
  induction reqs as [|req rest IH]; intros w' Hw; [constructor|].
  rewrite serve_cons. cbn [fst]. constructor; [by apply H1|].
  apply IH. by rewrite predict_keeps_globals.
Qed.

Lemma loaded_never_unavailable_witness :
  Forall (λ r, ∀ body, r ≠ Ok (body, 503))
    (serve no_strings
       [post (sample_body (PInt 12) (PInt 25) (PInt 5) (PInt 800));
        post (sample_body PNone (PInt 25) (PInt 5) (PInt 800));
        post PNone]
       ready_world).1.
Proof.
  apply (loaded_never_unavailable no_strings _ ready_world).
  split; eexists; reflexivity.
Defined.

(** ** The index [numpy.argmax] picks *)

Lemma ticks_bound f : valid f → is_finite f = true → - 2 ^ 2100 < ticks f < 2 ^ 2100.
Proof.
  intros V F. destruct f as [s| | |s m e]; try discriminate; cbn [ticks]; [lia|].
  apply valid_finite_bounds in V as (He & Hm & _).
  assert (0 < 2 ^ (e + 1074)) by (apply Z.pow_pos_nonneg; lia).
  assert (2 ^ (e + 1074) <= 2 ^ 2045) by (apply Z.pow_le_mono_r; lia).
  assert (Z.pos m * 2 ^ (e + 1074) < 2 ^ 53 * 2 ^ 2045).
  { apply Z.le_lt_trans with (Z.pos m * 2 ^ 2045).
    - apply Z.mul_le_mono_nonneg_l; lia.
    - apply Z.mul_lt_mono_pos_r; lia. }
  assert (2 ^ 53 * 2 ^ 2045 < 2 ^ 2100) by (rewrite <- Z.pow_add_r by lia; apply Z.pow_lt_mono_r; lia).
  destruct s; cbn [signed]; lia.
Qed.

(** Python's [<=] on floats that are not NaN is the order of the ranks. *)
Lemma le_order_key f1 f2 :
  valid f1 → valid f2 → is_nan f1 = false → is_nan f2 = false →
  le f1 f2 = (order_key f1 <=? order_key f2).
Proof.
  intros V1 V2 N1 N2.
  destruct (is_finite f1) eqn:F1, (is_finite f2) eqn:F2.
  - apply eq_true_iff_eq. rewrite (le_ticks _ _ V1 V2 F1 F2), Z.leb_le.
    by destruct f1, f2.
  - pose proof (ticks_bound f1 V1 F1).
    destruct f2 as [|s2| |]; try discriminate.
    destruct f1 as [s1| | |s1 m1 e1]; try discriminate; destruct s2;
      cbn [order_key] in *; unfold le, SFleb; cbn [SFcompare];
      symmetry; first [apply Z.leb_le; lia | apply Z.leb_gt; lia].
  - pose proof (ticks_bound f2 V2 F2).
    destruct f1 as [|s1| |]; try discriminate.
    destruct f2 as [s2| | |s2 m2 e2]; try discriminate; destruct s1;
      cbn [order_key] in *; unfold le, SFleb; cbn [SFcompare];
      symmetry; first [apply Z.leb_le; lia | apply Z.leb_gt; lia].
  - destruct f1 as [|s1| |], f2 as [|s2| |]; try discriminate. by destruct s1, s2.
Qed.

Lemma argmax_loop_spec pre rest mp max_ind :
  Forall valid (pre ++ rest) → Forall (λ x, is_nan x = false) (pre ++ rest) →
  pre !! max_ind = Some mp →
  (∀ y, y ∈ pre → order_key y <= order_key mp) →
  (∀ j y, (j < max_ind)%nat → pre !! j = Some y → order_key y < order_key mp) →
  ∃ x, (pre ++ rest) !! argmax_loop mp max_ind (length pre) rest = Some x ∧
       (∀ y, y ∈ pre ++ rest → order_key y <= order_key x) ∧
       (∀ j y, (j < argmax_loop mp max_ind (length pre) rest)%nat →
               (pre ++ rest) !! j = Some y → order_key y < order_key x).
Proof.
  revert pre mp max_ind. induction rest as [|x rest IH]; intros pre mp max_ind V N Hmp Hmax Hfirst.
  - rewrite app_nil_r in *. cbn [argmax_loop]. by exists mp.
  - assert (Vmp : valid mp).
    { rewrite Forall_forall in V. apply V, elem_of_app. left. by eapply list_elem_of_lookup_2. }
    assert (Nmp : is_nan mp = false).
    { rewrite Forall_forall in N. apply N, elem_of_app. left. by eapply list_elem_of_lookup_2. }
    assert (Vx : valid x) by (rewrite Forall_forall in V; apply V; set_solver).
    assert (Nx : is_nan x = false) by (rewrite Forall_forall in N; apply N; set_solver).
    cbn [argmax_loop]. rewrite (le_order_key x mp Vx Vmp Nx Nmp), Nx.
    replace (pre ++ x :: rest) with ((pre ++ [x]) ++ rest) in * by (by rewrite <- app_assoc).
    replace (S (length pre)) with (length (pre ++ [x])) by (rewrite length_app; cbn; lia).
    destruct (Z.leb_spec (order_key x) (order_key mp)) as [Hle|Hgt]; cbn [negb].
    + apply IH; [done|done| | |].
      * by apply lookup_app_l_Some.
      * intros y [Hy|Hy%list_elem_of_singleton]%elem_of_app; [by apply Hmax|by subst].
      * intros j y Hj Hy. apply (Hfirst j y Hj).
        apply lookup_lt_Some in Hmp. by rewrite lookup_app_l in Hy by lia.
    + apply IH; [done|done| | |].
      * rewrite lookup_app_r by lia. by rewrite Nat.sub_diag.
      * intros y [Hy|Hy%list_elem_of_singleton]%elem_of_app; [|subst; lia].
        specialize (Hmax y Hy). lia.
      * intros j y Hj Hy. rewrite lookup_app_l in Hy by lia.
        assert (order_key y <= order_key mp) by (by eapply Hmax, list_elem_of_lookup_2). lia.
Qed.

(** X15.  On a row of well-formed floats without NaN, the index picked is
    that of a largest entry, and every entry before it is strictly
    smaller: ties go to the lowest index. *)
Theorem np_argmax_picks_first_maximum row idx :
  Forall valid row → Forall (λ x, is_nan x = false) row →
  np_argmax row = Ok idx →
  ∃ x, row !! idx = Some x ∧
       (∀ y, y ∈ row → le y x = true) ∧
       (∀ j y, (j < idx)%nat → row !! j = Some y → le x y = false).
Proof.
  intros V N H. destruct row as [|x0 rest]; [done|]. cbn [np_argmax] in H.
  assert (N0 : is_nan x0 = false) by (by inversion N).
  rewrite N0 in H. injection H as <-.
  destruct (argmax_loop_spec [x0] rest x0 0 V N eq_refl) as (x & Hx & Hmax & Hfirst).
  { intros y ->%list_elem_of_singleton. lia. }
  { intros j y Hj. lia. }
  cbn [length app] in *. exists x.
  assert (Hin : x ∈ x0 :: rest) by (by eapply list_elem_of_lookup_2).
  rewrite Forall_forall in V, N.
  split; [done|]. split.
  - intros y Hy. rewrite le_order_key by auto. apply Z.leb_le. by apply Hmax.
  - intros j y Hj Hy.
    assert (y ∈ x0 :: rest) by (by eapply list_elem_of_lookup_2).
    rewrite le_order_key by auto. apply Z.leb_gt. by eapply Hfirst.
Qed.

Lemma np_argmax_picks_first_maximum_witness :
  ∃ x, [of_Z 0; of_Z 3; of_Z 1; of_Z 3] !! 1%nat = Some x ∧
       (∀ y, y ∈ [of_Z 0; of_Z 3; of_Z 1; of_Z 3] → le y x = true) ∧
       (∀ j y, (j < 1)%nat → [of_Z 0; of_Z 3; of_Z 1; of_Z 3] !! j = Some y → le x y = false).
Proof.
  apply (np_argmax_picks_first_maximum [of_Z 0; of_Z 3; of_Z 1; of_Z 3] 1).
  - repeat constructor.
  - repeat constructor.
  - reflexivity.
Defined.

Lemma argmax_loop_nan mp max_ind i rest k :
  is_nan mp = false →
  (∃ x, rest !! k = Some x ∧ is_nan x = true) →
  (∀ j y, (j < k)%nat → rest !! j = Some y → is_nan y = false) →
  argmax_loop mp max_ind i rest = (i + k)%nat.
Proof.
  revert mp max_ind i k. induction rest as [|y rest IH]; intros mp max_ind i k Nmp (x & Hx & Nx) Hbefore.
  - done.
  - cbn [argmax_loop]. destruct k as [|k].
    + injection Hx as ->. rewrite Nx.
      assert (le x mp = false) as -> by (by destruct x).
      cbn. lia.
    + assert (Ny : is_nan y = false) by (apply (Hbefore 0%nat); [lia|done]).
      rewrite Ny. replace (i + S k)%nat with (S i + k)%nat by lia.
      destruct (negb (le y mp)); apply IH; try done; try (by exists x);
        intros j z Hj Hz; apply (Hbefore (S j)); [lia|done|lia|done].
Qed.

(** X16.  On a row with a NaN, the index picked is that of the first
    NaN. *)
Theorem np_argmax_first_nan row k x :
  row !! k = Some x → is_nan x = true →
  (∀ j y, (j < k)%nat → row !! j = Some y → is_nan y = false) →
  np_argmax row = Ok k.
Proof.
  intros Hk Nx Hbefore. destruct row as [|x0 rest]; [done|]. cbn [np_argmax]. f_equal.
  destruct k as [|k].
  - injection Hk as ->. by rewrite Nx.
  - assert (N0 : is_nan x0 = false) by (apply (Hbefore 0%nat); [lia|done]).
    rewrite N0. rewrite (argmax_loop_nan x0 0 1 rest k); [lia|done|by exists x|].
    intros j y Hj Hy. apply (Hbefore (S j)); [lia|done].
Qed.

Lemma np_argmax_first_nan_witness :
  np_argmax [of_Z 0; S754_nan; of_Z 3; S754_nan] = Ok 1%nat.
Proof.
  apply (np_argmax_first_nan [of_Z 0; S754_nan; of_Z 3; S754_nan] 1 S754_nan).
  - reflexivity.
  - reflexivity.
  - intros [|j] y Hj Hy; [by injection Hy as <-|lia].
Defined.

Lemma first_conversion_error_decides_witness :
  predict no_strings
    (post (PDict {[ "voltage" := PInt 999; "temperature" := PStr "abc";
                    "dust" := PInt 5; "irradiance" := PInt 800 ]}))
    ready_world =
    if is_ValueError (PyExc ValueError "could not convert string to float: 'abc'")
    then (Ok format_error, ready_world)
    else (Ok (internal_error (PyExc ValueError "could not convert string to float: 'abc'")),
          log_error (PyExc ValueError "could not convert string to float: 'abc'") ready_world).
Proof.
  apply (first_conversion_error_decides no_strings
           {[ "voltage" := PInt 999; "temperature" := PStr "abc";
              "dust" := PInt 5; "irradiance" := PInt 800 ]}
           (PInt 999) (PStr "abc") (PInt 5) (PInt 800)).
  - split; eexists; reflexivity.
  - reflexivity.
  - reflexivity.
  - reflexivity.
  - reflexivity.
  - reflexivity.
Defined.
